(** * swift-syntax-tblgen: the syntax-node generator, embedded and verified

    The program under study is [lib/Syntax/TableGen/swift-syntax-tblgen.cpp]:
    a TableGen backend that reads node definitions and prints the C++
    source of the handle ([XSyntax]) and wrapper ([XSyntaxData]) classes.

    The development has five parts:
    - the output stream and the ways generation can abort;
    - the part of LLVM's TableGen record model the program reads;
    - the program itself, function by function, in source order;
    - the schema view of a node (slots, token constraints, categories), an
      example schema, and the text each node definition calls for;
    - the proofs relating the printed text to that view. *)

From Stdlib Require Import String Ascii List Bool ZArith.
From Stdlib Require Import DecimalString DecimalNat.
Import ListNotations.

Local Open Scope list_scope.
Local Open Scope string_scope.

(** ** Characters the source writes with escapes *)

(** The line feed, written [\n] in the source. *)
Definition nl : string := String "010"%char EmptyString.

(** The double quote character, escaped in the source. *)
Definition dq : string := String "034"%char EmptyString.

(** ** Aborts

    Every way the C++ program can stop without returning: a failed [assert],
    a failed [cast<>], a null or dangling pointer dereference, an empty
    [Optional] read with [getValue], [PrintFatalError], a [StringSwitch]
    without default that matched nothing, [llvm_unreachable], and [back()]
    on an empty array. *)
Inductive Abort : Type :=
| AssertionFailure
| BadCast
| NullPointer
| DanglingPointer
| NoOptionalValue
| FatalError
| StringSwitchFellOff
| Unreachable
| EmptyArray.

Inductive result (A : Type) : Type :=
| Ok (a : A)
| Fail (e : Abort).

Arguments Ok {A} a.
Arguments Fail {A} e.

(** ** The output stream

    [raw_ostream] is the text written so far; a printer takes the stream and
    returns its value with the stream extended, or aborts. *)
Definition raw_ostream : Type := string.

Definition Printer (A : Type) : Type := raw_ostream -> result (A * raw_ostream).

Class Monad (M : Type -> Type) : Type := {
  ret : forall {A : Type}, A -> M A;
  bind : forall {A B : Type}, M A -> (A -> M B) -> M B
}.

#[global] Instance Monad_result : Monad result := {
  ret := fun A a => Ok a;
  bind := fun A B m k => match m with Ok a => k a | Fail e => Fail e end
}.

#[global] Instance Monad_Printer : Monad Printer := {
  ret := fun A a OS => Ok (a, OS);
  bind := fun A B m k OS =>
    match m OS with
    | Ok (a, OS') => k a OS'
    | Fail e => Fail e
    end
}.

Declare Scope monad_scope.
Delimit Scope monad_scope with monad.
Notation "x <- m ;; k" := (bind m (fun x => k))
  (at level 61, m at next level, right associativity) : monad_scope.
Notation "m ;; k" := (bind m (fun _ => k))
  (at level 61, right associativity) : monad_scope.
Local Open Scope monad_scope.

(** A pure lookup used inside a printer leaves the stream alone. *)
Definition lift {A : Type} (r : result A) : Printer A :=
  fun OS => match r with Ok a => Ok (a, OS) | Fail e => Fail e end.

(** [OS << s]: the stream operator, chained to the left as in the source. *)
Definition OS : Printer unit := ret tt.

Definition shl (p : Printer unit) (s : string) : Printer unit :=
  fun os => match p os with
            | Ok (_, os') => Ok (tt, os' ++ s)
            | Fail e => Fail e
            end.

Notation "p << s" := (shl p s) (at level 40, left associativity) : monad_scope.

(** [for (const auto X : Xs) body]. *)
Fixpoint for_each {A : Type} (Xs : list A) (body : A -> Printer unit)
  : Printer unit :=
  match Xs with
  | [] => ret tt
  | X :: Xs' => body X ;; for_each Xs' body
  end.

(** [assert(b)]. *)
Definition assert (b : bool) : result unit :=
  if b then Ok tt else Fail AssertionFailure.

(** Printing a [size_t] in decimal. *)
Definition decimal (n : nat) : string := NilEmpty.string_of_uint (Nat.to_uint n).

(** ** LLVM's StringSwitch *)

Module StringSwitch.

Record t (T : Type) : Type := mk { Str : string; Result : option T }.
Arguments mk {T} Str Result.
Arguments Str {T} _.
Arguments Result {T} _.

Definition StringSwitch {T : Type} (S : string) : t T := mk S None.

(** The first matching case wins. *)
Definition Case {T : Type} (S : string) (Value : T) (sw : t T) : t T :=
  match Result sw with
  | Some _ => sw
  | None => if (Str sw =? S)%string then mk (Str sw) (Some Value) else sw
  end.

Definition Default {T : Type} (Value : T) (sw : t T) : T :=
  match Result sw with
  | Some r => r
  | None => Value
  end.

(** The conversion operator of a switch without default: it asserts that
    some case matched. *)
Definition convert {T : Type} (sw : t T) : result T :=
  match Result sw with
  | Some r => Ok r
  | None => Fail StringSwitchFellOff
  end.

End StringSwitch.

(** [sw |> f] applies the next method of a call chain. *)
Notation "x |> f" := (f x) (at level 45, left associativity, only parsing).

(** ** The TableGen record model

    The part of [llvm/TableGen/Record.h] the generator reads, as the library
    of that time has it: a [RecordRecTy] names one record, the type of a
    [DefInit] is the [RecordRecTy] of the def itself, and a record's
    superclass list holds every superclass, direct ones last.

    The [RecordKeeper] owns every record in two maps keyed by name, so a
    [Record *] is the map and the key: pointer equality is equality of
    [RecordPtr], and [->] is [RecordKeeper.deref]. *)

Module RecordPtr.

Inductive t : Type :=
| Class (Name : string)
| Def (Name : string).

(** [Rec->getName()]: the key the record is stored under. *)
Definition getName (p : t) : string :=
  match p with
  | Class Name => Name
  | Def Name => Name
  end.

Definition eqb (p q : t) : bool :=
  match p, q with
  | Class n, Class m => (n =? m)%string
  | Def n, Def m => (n =? m)%string
  | _, _ => false
  end.

(** Equality of two pointers either of which may be null. *)
Definition eqb_nullable (p q : option t) : bool :=
  match p, q with
  | Some p', Some q' => eqb p' q'
  | None, None => true
  | _, _ => false
  end.

End RecordPtr.

(** Field types: a record type, or any of [bit], [int], [string], [list<>],
    [dag] and the like, which the generator never looks into. *)
Inductive RecTy : Type :=
| RecordRecTy (Rec : RecordPtr.t)
| OtherRecTy (AsString : string).

(** [RecordRecTy::getAsString]. *)
Definition RecordRecTy_getAsString (Rec : RecordPtr.t) : string :=
  RecordPtr.getName Rec.

(** Field values: a string, a reference to a def, or any other initializer
    (unset, bit, int, list, ...), kept with its printed form. *)
Inductive Init : Type :=
| StringInit (Value : string)
| DefInit (Def : RecordPtr.t)
| OtherInit (AsString : string).

(** [Init::getAsUnquotedString]. *)
Definition getAsUnquotedString (I : Init) : string :=
  match I with
  | StringInit Value => Value
  | DefInit Def => RecordPtr.getName Def
  | OtherInit AsString => AsString
  end.

(** [cast<DefInit>(I)->getDef()]. *)
Definition cast_DefInit (I : Init) : result RecordPtr.t :=
  match I with
  | DefInit Def => Ok Def
  | _ => Fail BadCast
  end.

(** [cast<RecordRecTy>(Ty)], identified with the record it names. *)
Definition cast_RecordRecTy (Ty : RecTy) : result RecordPtr.t :=
  match Ty with
  | RecordRecTy Rec => Ok Rec
  | OtherRecTy _ => Fail BadCast
  end.

Module RecordVal.

Record t : Type := mk {
  getName : string;
  getType : RecTy;
  getValue : Init
}.

End RecordVal.

Module Rec.

(** A class or a def. Source ranges of the superclass list are dropped. *)
Record t : Type := mk {
  getSuperClasses : list RecordPtr.t;
  getValues : list RecordVal.t
}.

(** [Record::getValue(Name)]: the first field of that name, or null. *)
Definition getValue (R : t) (Name : string) : option RecordVal.t :=
  find (fun Val => (RecordVal.getName Val =? Name)%string) (getValues R).

(** [Record::isSubClassOf], the overload taking a record pointer: a scan of
    the superclass list for that very pointer. *)
Definition isSubClassOf (R : t) (C : option RecordPtr.t) : bool :=
  existsb (fun SC => RecordPtr.eqb_nullable (Some SC) C) (getSuperClasses R).

(** [Record::getValueAsString]: a fatal error unless the field exists and
    holds a string. *)
Definition getValueAsString (R : t) (FieldName : string) : result string :=
  match getValue R FieldName with
  | Some Val =>
      match RecordVal.getValue Val with
      | StringInit Value => Ok Value
      | _ => Fail FatalError
      end
  | None => Fail FatalError
  end.

End Rec.

Module RecordKeeper.

(** The two maps, as their entries in key order. *)
Record t : Type := mk {
  getClasses : list (string * Rec.t);
  getDefs : list (string * Rec.t)
}.

Definition lookup (M : list (string * Rec.t)) (Name : string) : option Rec.t :=
  match find (fun E => (fst E =? Name)%string) M with
  | Some E => Some (snd E)
  | None => None
  end.

(** [RecordKeeper::getClass]: null when there is no such class. *)
Definition getClass (RK : t) (Name : string) : option RecordPtr.t :=
  match lookup (getClasses RK) Name with
  | Some _ => Some (RecordPtr.Class Name)
  | None => None
  end.

(** Reading through a pointer. A pointer into nothing cannot exist in the
    C++ program; the model aborts on it. *)
Definition deref (RK : t) (p : RecordPtr.t) : result Rec.t :=
  match p with
  | RecordPtr.Class Name =>
      match lookup (getClasses RK) Name with
      | Some R => Ok R
      | None => Fail DanglingPointer
      end
  | RecordPtr.Def Name =>
      match lookup (getDefs RK) Name with
      | Some R => Ok R
      | None => Fail DanglingPointer
      end
  end.

(** [RecordKeeper::getAllDerivedDefinitions]: a fatal error when the class
    does not exist, else the defs below it in key order. *)
Definition getAllDerivedDefinitions (RK : t) (ClassName : string)
  : result (list RecordPtr.t) :=
  match getClass RK ClassName with
  | None => Fail FatalError
  | Some Class =>
      Ok (map (fun D => RecordPtr.Def (fst D))
              (filter (fun D => Rec.isSubClassOf (snd D) (Some Class))
                      (getDefs RK)))
  end.

End RecordKeeper.

(** [SmallPtrSet<const Record *, 8>]. *)
Module SmallPtrSet.

Definition t : Type := list (option RecordPtr.t).

Definition empty : t := [].

Definition count (S : t) (p : option RecordPtr.t) : bool :=
  existsb (RecordPtr.eqb_nullable p) S.

Definition insert (p : option RecordPtr.t) (S : t) : t :=
  if count S p then S else (S ++ [p])%list.

End SmallPtrSet.

(** [ArrayRef::back]. *)
Definition back {A : Type} (l : list A) : result A :=
  match List.rev l with
  | x :: _ => Ok x
  | [] => Fail EmptyArray
  end.

(** ** The program *)

Module ActionType.

Inductive t : Type :=
| None
| GenImplementation
| GenInterface.

End ActionType.

Module Category.

Inductive t : Type :=
| Unknown
| Decl
| Stmt
| Expr
| Type_
| Pattern
| SyntaxFactory
| SyntaxRewriter.

Definition eqb (a b : t) : bool :=
  match a, b with
  | Unknown, Unknown | Decl, Decl | Stmt, Stmt | Expr, Expr
  | Type_, Type_ | Pattern, Pattern
  | SyntaxFactory, SyntaxFactory | SyntaxRewriter, SyntaxRewriter => true
  | _, _ => false
  end.

End Category.

Module TargetLanguage.

Inductive t : Type :=
| CPlusPlus.

End TargetLanguage.

(** The command-line options, as [cl::ParseCommandLineOptions] leaves them. *)
Module options.

Record t : Type := mk {
  Action : ActionType.t;
  Language : TargetLanguage.t;
  Category : string
}.

End options.

Section Generator.

(** The globals [AllRecords] and [SyntaxCategories], and the parsed options.
    [SyntaxTableGenMain] sets the first two before any other function
    runs. *)
Variable AllRecords : RecordKeeper.t.
Variable SyntaxCategories : SmallPtrSet.t.
Variable opts : options.t.

(** *** Helpers *)

(** [is(Ty, TypeName)]; the name [is] is reserved here. *)
Definition is_ (Ty : RecTy) (TypeName : string) : result bool :=
  match Ty with
  | RecordRecTy RecordTy =>
      if (RecordRecTy_getAsString RecordTy =? TypeName)%string then Ok true
      else
        R <- RecordKeeper.deref AllRecords RecordTy ;;
        Ok (Rec.isSubClassOf R (RecordKeeper.getClass AllRecords TypeName))
  | OtherRecTy _ => Ok false
  end.

Definition isToken (Ty : RecTy) : result bool := is_ Ty "Token".

Definition isIdentifier (Ty : RecTy) : result bool := is_ Ty "Identifier".

Definition isLayout (Ty : RecTy) : result bool := is_ Ty "Layout".

(** [getLayoutNodeRecord(const Record *Rec)]. *)
Definition getLayoutNodeRecord (Rec : RecordPtr.t) : result RecordPtr.t :=
  R <- RecordKeeper.deref AllRecords Rec ;;
  match Rec.getValue R "Node" with
  | Some NodeField => cast_DefInit (RecordVal.getValue NodeField)
  | None => Fail NullPointer
  end.

(** [getLayoutNodeRecord(const RecordVal Child)], the other overload. *)
Definition getLayoutNodeRecord_Child (Child : RecordVal.t)
  : result RecordPtr.t :=
  b <- isLayout (RecordVal.getType Child) ;;
  assert b ;;
  NodeDef <- cast_DefInit (RecordVal.getValue Child) ;;
  getLayoutNodeRecord NodeDef.

Definition getSyntaxCategory (Def : RecordPtr.t)
  : result (option RecordPtr.t) :=
  R <- RecordKeeper.deref AllRecords Def ;;
  Ok (find (fun Super => SmallPtrSet.count SyntaxCategories (Some Super))
           (Rec.getSuperClasses R)).

(** The [RecordRecTy] returned is identified with the record it names. *)
Definition getLayoutNodeType (Child : RecordVal.t) : result RecordPtr.t :=
  b <- isLayout (RecordVal.getType Child) ;;
  assert b ;;
  NodeDef <- cast_DefInit (RecordVal.getValue Child) ;;
  R <- RecordKeeper.deref AllRecords NodeDef ;;
  match Rec.getValue R "Node" with
  | Some NodeField =>
      NodeValue <- cast_DefInit (RecordVal.getValue NodeField) ;;
      cast_RecordRecTy (RecordRecTy NodeValue)
  | None => Fail NullPointer
  end.

Definition getTokenSpelling (Value : RecordVal.t) : result string :=
  b <- isLayout (RecordVal.getType Value) ;;
  assert b ;;
  TokenRec <- getLayoutNodeRecord_Child Value ;;
  R <- RecordKeeper.deref AllRecords TokenRec ;;
  match find (fun Field => (RecordVal.getName Field =? "Spelling")%string)
             (Rec.getValues R) with
  | Some Field => Ok (getAsUnquotedString (RecordVal.getValue Field))
  | None => Ok EmptyString
  end.

Definition getMissingSyntaxKind (Child : RecordVal.t) : result string :=
  Node <- getLayoutNodeRecord_Child Child ;;
  OptCategory <- getSyntaxCategory Node ;;
  match OptCategory with
  | Some Category =>
      StringSwitch.StringSwitch (RecordPtr.getName Category)
      |> StringSwitch.Case "Decl" "MissingDecl"
      |> StringSwitch.Case "Expr" "MissingExpr"
      |> StringSwitch.Case "Stmt" "MissingStmt"
      |> StringSwitch.Case "Type" "MissingType"
      |> StringSwitch.Case "Pattern" "MissingPattern"
      |> StringSwitch.Case "SyntaxCollection" "MissingSyntaxCollection"
      |> StringSwitch.convert
  | None => Fail NoOptionalValue
  end.

Definition getCategory : Category.t :=
  StringSwitch.StringSwitch (options.Category opts)
  |> StringSwitch.Case "Decl" Category.Decl
  |> StringSwitch.Case "Expr" Category.Expr
  |> StringSwitch.Case "Stmt" Category.Stmt
  |> StringSwitch.Case "Type" Category.Type_
  |> StringSwitch.Case "Pattern" Category.Pattern
  |> StringSwitch.Case "SyntaxFactory" Category.SyntaxFactory
  |> StringSwitch.Case "SyntaxRewriter" Category.SyntaxRewriter
  |> StringSwitch.Default Category.Unknown.

(** The loop of [getChildrenOf]: [Children] is the vector built so far. *)
Fixpoint getChildrenOf_loop (Values Children : list RecordVal.t)
  : result (list RecordVal.t) :=
  match Values with
  | [] => Ok Children
  | Child :: Values' =>
      b <- isLayout (RecordVal.getType Child) ;;
      if negb b then getChildrenOf_loop Values' Children
      else getChildrenOf_loop Values' (Children ++ [Child])%list
  end.

Definition getChildrenOf (Node : RecordPtr.t) : result (list RecordVal.t) :=
  R <- RecordKeeper.deref AllRecords Node ;;
  getChildrenOf_loop (Rec.getValues R) [].

Definition printTokenAssertion (VariableName : string) (Value : RecordVal.t)
  : Printer unit :=
  b <- lift (isLayout (RecordVal.getType Value)) ;;
  lift (assert b) ;;
  Ty <- lift (getLayoutNodeType Value) ;;
  t <- lift (isToken (RecordRecTy Ty)) ;;
  lift (assert t) ;;
  TokenRec <- lift (getLayoutNodeRecord_Child Value) ;;
  R <- lift (RecordKeeper.deref AllRecords TokenRec) ;;
  Kind <- lift (Rec.getValueAsString R "Kind") ;;
  i <- lift (isIdentifier (RecordRecTy Ty)) ;;
  if i then
    OS << "assert(" << VariableName << "->getTokenKind() == " << Kind
       << ");" << nl
  else
    Spelling <- lift (getTokenSpelling Value) ;;
    OS << "  syntax_assert_token_is(" << VariableName << ", " << Kind
       << ", " << dq << Spelling << dq << ");" << nl.

(** *** Syntax *)

Definition printSyntaxInterface (Node : RecordPtr.t) : Printer bool :=
  let ClassName := RecordPtr.getName Node ++ "Syntax" in
  R <- lift (RecordKeeper.deref AllRecords Node) ;;
  Super <- lift (back (Rec.getSuperClasses R)) ;;
  let SuperclassName := RecordPtr.getName Super ++ "Syntax" in
  let DataClassName := ClassName ++ "Data" in
  OS << "class " << ClassName << " final : public Syntax {" << nl
     << "  friend struct SyntaxFactory;" << nl
     << "  friend class " << DataClassName << ";" << nl
     << "  friend class SyntaxData;" << nl
     << nl
     << "  using DataType = " << DataClassName << ";" << nl
     << nl
     << "  enum class Cursor : CursorIndex {" << nl ;;
  Children <- lift (getChildrenOf Node) ;;
  for_each Children (fun Child =>
    OS << "    " << RecordVal.getName Child << "," << nl) ;;
  OS << "  };" << nl ;;
  OS << "  " << ClassName << "(RC<SyntaxData> Root, const " << DataClassName
     << "*Data)" << nl
     << "    : " << SuperclassName << "(Root, Data) {}" << nl
     << "public:" << nl ;;
  Children <- lift (getChildrenOf Node) ;;
  for_each Children (fun Child =>
    ChildType <- lift (cast_RecordRecTy (RecordVal.getType Child)) ;;
    let ChildTypeName := RecordRecTy_getAsString ChildType ++ "Syntax" in
    let OptionalChildTypeName := "llvm::Optional<" ++ ChildTypeName ++ ">" in
    let ChildTypeName :=
      if RecordPtr.eqb_nullable (Some ChildType)
                                (RecordKeeper.getClass AllRecords "Token")
      then "RC<" ++ ChildTypeName ++ ">"
      else ChildTypeName in
    OS << "  " << OptionalChildTypeName << " get" << RecordVal.getName Child
       << "() const;" << nl ;;
    OS << "  " << ClassName << " with" << RecordVal.getName Child << "("
       << ChildTypeName << " New" << RecordVal.getName Child << ") const;"
       << nl << nl) ;;
  OS << "  static bool classof(const Syntax *S) {" << nl
     << "    return S->getKind() == SyntaxKind::" << ClassName << ";" << nl
     << "  }" << nl
     << "};" << nl << nl ;;
  ret false.

Definition printSyntaxDataInterface (Node : RecordPtr.t) : Printer bool :=
  let Kind := RecordPtr.getName Node in
  let ClassName := Kind ++ "Syntax" in
  let DataClassName := ClassName ++ "Data" in
  OS << "class " << DataClassName << " final : public SyntaxData {" << nl
     << "  friend class SyntaxData;" << nl
     << "  friend struct SyntaxFactory;" << nl
     << nl
     << "  " << DataClassName
     << "(RC<RawSyntax> Raw, const SyntaxData *Parent = nullptr, CursorIndex IndexInParent = 0);"
     << nl
     << nl
     << "  static RC<" << DataClassName
     << "> make(RC<RawSyntax> Raw, const SyntaxData *Parent = nullptr, CursorIndex IndexInParent = 0);"
     << nl
     << "  static RC<" << DataClassName << "> makeBlank();" << nl
     << nl
     << "public:" << nl
     << "  static bool classof(const SyntaxData *SD) {" << nl
     << "    return S->getKind() == SyntaxKind::" << Kind << ";" << nl
     << "  }" << nl
     << "};" << nl << nl ;;
  ret false.

Definition printSyntaxInterfaces : Printer bool :=
  Nodes <- lift (RecordKeeper.getAllDerivedDefinitions
                   AllRecords (options.Category opts)) ;;
  let Any := "Any" ++ options.Category opts in
  for_each Nodes (fun Node =>
    if (RecordPtr.getName Node =? Any)%string then ret tt
    else
      printSyntaxInterface Node ;;
      printSyntaxDataInterface Node ;;
      ret tt) ;;
  ret false.

Definition printSyntaxImplementation (Node : RecordPtr.t) : Printer bool :=
  let Kind := RecordPtr.getName Node in
  let ClassName := Kind in
  let DataClassName := ClassName ++ "Data" in
  Children <- lift (getChildrenOf Node) ;;
  for_each Children (fun Child =>
    let ChildName := RecordVal.getName Child in
    ChildType <- lift (getLayoutNodeType Child) ;;
    let ChildTypeName := RecordRecTy_getAsString ChildType in
    let OptionalChildTypeName := "llvm::Optional<" ++ ChildTypeName ++ ">" in
    (* Getter *)
    OS << OptionalChildTypeName << nl
       << ClassName << "::get" << ChildName << "() const {" << nl
       << "  auto RawChild = getRaw()->getChild(Cursor::" << ChildName << ";"
       << nl
       << "  if (RawChild->isMissing()) {" << nl
       << "    return llvm::None;" << nl
       << "  }" << nl
       << "  auto *MyData = getUnsafeData<" << ClassName << ">();" << nl
       << "  auto &ChildPtr = *reinterpret_cast<std::atomic<uintptr_t>*>(" << nl
       << "    &MyData->Cached" << ChildName << ");" << nl
       << "  SyntaxData::realizeSyntaxNode<" << ChildTypeName
       << ">(ChildPtr, RawChild, MyData, cursorIndex(Cursor::" << ChildName
       << "));" << nl
       << "  return " << ClassName << "{ Root, MyData->Cached" << ChildName
       << ".get() };" << nl
       << "}" << nl << nl ;;
    (* Setter *)
    let NewChildArg := "New" ++ ChildName in
    OS << ClassName << nl << ClassName << "::with" << ChildName << "("
       << ChildTypeName << " " << NewChildArg << ") const {" << nl ;;
    t <- lift (isToken (RecordRecTy ChildType)) ;;
    (if t then
       printTokenAssertion NewChildArg Child ;;
       OS << "  return Data->replaceChild<" << ClassName << ">("
          << NewChildArg << ", " << "Cursor::" << ChildName << ");" << nl
     else
       OS << "  return Data->replaceChild<" << ClassName << ">("
          << NewChildArg << "->getRaw(), " << "Cursor::" << ChildName << ");"
          << nl) ;;
    OS << "}" << nl << nl) ;;
  ret false.

Definition printSyntaxDataImplementation (Node : RecordPtr.t)
  : Printer bool :=
  let Kind := RecordPtr.getName Node in
  let ClassName := Kind in
  R <- lift (RecordKeeper.deref AllRecords Node) ;;
  Super <- lift (back (Rec.getSuperClasses R)) ;;
  let SuperclassName := RecordPtr.getName Super in
  let DataClassName := ClassName ++ "Data" in
  let DataSuperclassName := SuperclassName ++ "Data" in
  (* Constructor *)
  Children <- lift (getChildrenOf Node) ;;
  OS << DataClassName << "::" << DataClassName
     << "(RC<RawSyntax> Raw, const SyntaxData *Data, const CursorIndex IndexInParent)"
     << nl
     << "  : " << DataSuperclassName << "(Raw, Data, IndexInParent) {" << nl
     << "  assert(Raw->getKind() == SyntaxKind::" << Kind << ");" << nl
     << "  assert(Raw->Layout.size() == " << decimal (List.length Children)
     << ");" << nl ;;
  Children <- lift (getChildrenOf Node) ;;
  for_each Children (fun Child =>
    let ChildName := RecordVal.getName Child in
    ChildType <- lift (getLayoutNodeType Child) ;;
    let ChildTypeName := RecordRecTy_getAsString ChildType in
    let ChildVariable := "Raw->getChild(Cursor::" ++ ChildName ++ ")" in
    t <- lift (isToken (RecordRecTy ChildType)) ;;
    if t then printTokenAssertion ChildVariable Child
    else
      OS << "  assert(" << ChildVariable << "->getKind() == SyntaxKind::"
         << ChildTypeName << ");" << nl) ;;
  OS << "}" << nl << nl ;;
  (* make *)
  OS << "RC<" << DataClassName << ">" << nl
     << DataClassName
     << "::make(RC<RawSyntax> Raw, const SyntaxData *Parent, const CursorIndex IndexInParent) {"
     << nl
     << "  return RC<" << DataClassName << "> {" << nl
     << "    new " << DataClassName << " { Raw, Parent, IndexInParent }" << nl
     << "  };" << nl
     << "}" << nl << nl ;;
  (* makeBlank *)
  OS << "RC<" << DataClassName << ">" << nl
     << DataClassName << "::makeBlank() {" << nl
     << "  return make(RawSyntax::make(SyntaxKind::" << Kind << "," << nl
     << "  {" << nl ;;
  Children <- lift (getChildrenOf Node) ;;
  for_each Children (fun Child =>
    ChildType <- lift (getLayoutNodeType Child) ;;
    t <- lift (isToken (RecordRecTy ChildType)) ;;
    if t then
      ChildRec <- lift (getLayoutNodeRecord_Child Child) ;;
      CR <- lift (RecordKeeper.deref AllRecords ChildRec) ;;
      TokenKind <- lift (Rec.getValueAsString CR "Kind") ;;
      TokenSpelling <- lift (Rec.getValueAsString CR "Spelling") ;;
      OS << "    TokenSyntax::missingToken(tok::" << TokenKind << ", " << dq
         << TokenSpelling << dq << ")," << nl
    else
      ChildKind <- lift (getMissingSyntaxKind Child) ;;
      OS << "    RawSyntax::missing(SyntaxKind::" << ChildKind << ")," << nl) ;;
  OS << "  }," << nl
     << "  SourcePresence::Present));" << nl
     << "}" << nl << nl ;;
  ret false.

Definition printSyntaxImplementations : Printer bool :=
  Nodes <- lift (RecordKeeper.getAllDerivedDefinitions
                   AllRecords (options.Category opts)) ;;
  let Any := "Any" ++ options.Category opts in
  for_each Nodes (fun Node =>
    if (RecordPtr.getName Node =? Any)%string then ret tt
    else
      OS << "#pragma mark - " << RecordPtr.getName Node << " API" << nl << nl ;;
      printSyntaxImplementation Node ;;
      OS << "#pragma mark - " << RecordPtr.getName Node << " Data" << nl << nl ;;
      printSyntaxDataImplementation Node ;;
      ret tt) ;;
  ret false.

(** *** SyntaxFactory *)

Definition printSyntaxFactoryInterface : Printer bool :=
  (* TODO *)
  ret false.

Definition printSyntaxFactoryImplementation : Printer bool :=
  (* TODO *)
  ret false.

(** *** SyntaxRewriter *)

Definition printSyntaxRewriterInterface : Printer bool :=
  (* TODO *)
  ret false.

Definition printSyntaxRewriterImplementation : Printer bool :=
  (* TODO *)
  ret false.

Definition genInterface : Printer bool :=
  match getCategory with
  | Category.Decl
  | Category.Expr
  | Category.Stmt
  | Category.Type_
  | Category.Pattern => printSyntaxInterfaces
  | Category.SyntaxFactory => printSyntaxFactoryInterface
  | Category.SyntaxRewriter => printSyntaxRewriterInterface
  | Category.Unknown => lift (Fail Unreachable)
  end.

Definition genImplementation : Printer bool :=
  match getCategory with
  | Category.Decl
  | Category.Expr
  | Category.Stmt
  | Category.Type_
  | Category.Pattern => printSyntaxImplementations
  | Category.SyntaxFactory => printSyntaxFactoryImplementation
  | Category.SyntaxRewriter => printSyntaxRewriterImplementation
  | Category.Unknown => lift (Fail Unreachable)
  end.

End Generator.

(** *** The driver *)

(** What the process shows on its console: a write to [llvm::errs()], or a
    call of the library's [cl::PrintHelpMessage]. *)
Inductive Event : Type :=
| errs (s : string)
| PrintHelpMessage.

(** [SyntaxTableGenMain] sets the globals, then dispatches on the action.
    Its result is what it returns (with the stream) and what it showed on
    the console. *)
Definition SyntaxTableGenMain (opts : options.t) (os : raw_ostream)
    (Records : RecordKeeper.t)
  : result (bool * raw_ostream) * list Event :=
  let AllRecords := Records in
  let SyntaxCategories :=
    SmallPtrSet.empty
    |> SmallPtrSet.insert (RecordKeeper.getClass AllRecords "Decl")
    |> SmallPtrSet.insert (RecordKeeper.getClass AllRecords "Stmt")
    |> SmallPtrSet.insert (RecordKeeper.getClass AllRecords "Expr")
    |> SmallPtrSet.insert (RecordKeeper.getClass AllRecords "Type")
    |> SmallPtrSet.insert (RecordKeeper.getClass AllRecords "Pattern")
    |> SmallPtrSet.insert (RecordKeeper.getClass AllRecords "Token")
    |> SmallPtrSet.insert (RecordKeeper.getClass AllRecords "SyntaxCollection")
  in
  match options.Action opts with
  | ActionType.None =>
      (Ok (true, os), [errs ("action required" ++ nl); PrintHelpMessage])
  | ActionType.GenInterface =>
      (genInterface AllRecords opts os, [])
  | ActionType.GenImplementation =>
      (genImplementation AllRecords SyntaxCategories opts os, [])
  end.

(** How a run ends: the exit status or the abort, the console, and the
    output document if one is kept. *)
Inductive Status : Type :=
| Exited (code : Z)
| Aborted (e : Abort).

Record Outcome : Type := mkOutcome {
  status : Status;
  console : list Event;
  output : option string
}.

(** LLVM's [TableGenMain], as far as the generator depends on it: [Input]
    is the record keeper parsed from the input file, absent when reading or
    parsing failed (the library's own diagnostics are not modelled). The
    callback starts from an empty stream; the output document is kept only
    when the callback returns false. *)
Definition TableGenMain
    (MainFn : raw_ostream -> RecordKeeper.t
              -> result (bool * raw_ostream) * list Event)
    (Input : option RecordKeeper.t) : Outcome :=
  match Input with
  | None => mkOutcome (Exited 1) [] None
  | Some Records =>
      match MainFn EmptyString Records with
      | (Ok (true, _), shown) => mkOutcome (Exited 1) shown None
      | (Ok (false, os), shown) => mkOutcome (Exited 0) shown (Some os)
      | (Fail e, shown) => mkOutcome (Aborted e) shown None
      end
  end.

Definition main (opts : options.t) (Input : option RecordKeeper.t) : Outcome :=
  if Category.eqb (getCategory opts) Category.Unknown then
    mkOutcome (Exited 1)
              [errs (options.Category opts);
               errs (" is an unknown category!" ++ nl);
               PrintHelpMessage]
              None
  else TableGenMain (SyntaxTableGenMain opts) Input.

(** ** The schema view

    The data model the generator is specified against: a node definition
    has a name, a declared parent and ordered child slots; a slot targets
    either a token, with its constraint, or a node of one of the categories
    of the missing-placeholder table. [Schema.nodeDefinition] reads this
    view off the TableGen records, and fails where the records do not
    describe a node (a slot without a layout record, a token without kind or
    spelling, a node in no registered category). *)

Module Schema.

(** The categories a node-typed slot can target. *)
Inductive NodeCategory : Type :=
| Decl
| Expr
| Stmt
| Type_
| Pattern
| SyntaxCollection.

(** The missing-placeholder table. *)
Definition missingKindFor (c : NodeCategory) : string :=
  match c with
  | Decl => "MissingDecl"
  | Expr => "MissingExpr"
  | Stmt => "MissingStmt"
  | Type_ => "MissingType"
  | Pattern => "MissingPattern"
  | SyntaxCollection => "MissingSyntaxCollection"
  end.

(** The registered categories by class name, in registration order: the six
    of the table, and [Token], which has no entry in it. *)
Definition registered : list (string * option NodeCategory) :=
  [ ("Decl", Some Decl); ("Stmt", Some Stmt); ("Expr", Some Expr);
    ("Type", Some Type_); ("Pattern", Some Pattern); ("Token", None);
    ("SyntaxCollection", Some SyntaxCollection) ].

Record TokenConstraint : Type := mkTokenConstraint {
  kind : string;
  identifierLike : bool;
  spelling : string
}.

Inductive Target : Type :=
| TokenTarget (c : TokenConstraint)
| NodeTarget (c : NodeCategory).

(** A child slot: its name, the record type its field is declared with, the
    name of the node type it holds, and its target. Its ordinal is its
    position in the slot list. *)
Record ChildSlot : Type := mkChildSlot {
  name : string;
  declared : RecordPtr.t;
  typeName : string;
  target : Target
}.

Record NodeDefinition : Type := mkNodeDefinition {
  nodeName : string;
  parent : string;
  slots : list ChildSlot
}.

Section Resolve.

Variable RK : RecordKeeper.t.

Definition classExists (C : string) : bool :=
  match RecordKeeper.lookup (RecordKeeper.getClasses RK) C with
  | Some _ => true
  | None => false
  end.

(** The record is named [C], or the class [C] exists and is among its
    ancestors. *)
Definition derives (p : RecordPtr.t) (C : string) : result bool :=
  R <- RecordKeeper.deref RK p ;;
  Ok ((RecordPtr.getName p =? C)%string
      || (classExists C
          && existsb (fun A => RecordPtr.eqb A (RecordPtr.Class C))
                     (Rec.getSuperClasses R))).

(** An ancestor is a registered category when it is an existing class
    whose name is registered. *)
Definition registration (A : RecordPtr.t)
  : option (string * option NodeCategory) :=
  match A with
  | RecordPtr.Class C =>
      if classExists C
      then find (fun E => (fst E =? C)%string) registered
      else None
  | RecordPtr.Def _ => None
  end.

(** CategoryRegistry.resolve: the first registered ancestor. *)
Fixpoint resolve (ancestry : list RecordPtr.t)
  : option (string * option NodeCategory) :=
  match ancestry with
  | [] => None
  | A :: ancestry' =>
      match registration A with
      | Some E => Some E
      | None => resolve ancestry'
      end
  end.

(** The node a slot's field refers to, through the field's layout record. *)
Definition nodeOf (F : RecordVal.t) : result RecordPtr.t :=
  layout <- cast_DefInit (RecordVal.getValue F) ;;
  L <- RecordKeeper.deref RK layout ;;
  match Rec.getValue L "Node" with
  | Some NodeField => cast_DefInit (RecordVal.getValue NodeField)
  | None => Fail NullPointer
  end.

(** TokenConstraintExtractor. *)
Definition tokenConstraint (node : RecordPtr.t) : result TokenConstraint :=
  N <- RecordKeeper.deref RK node ;;
  k <- Rec.getValueAsString N "Kind" ;;
  s <- Rec.getValueAsString N "Spelling" ;;
  i <- derives node "Identifier" ;;
  Ok (mkTokenConstraint k i s).

Definition targetOf (node : RecordPtr.t) : result Target :=
  isTok <- derives node "Token" ;;
  if (isTok : bool) then
    c <- tokenConstraint node ;;
    Ok (TokenTarget c)
  else
    N <- RecordKeeper.deref RK node ;;
    match resolve (Rec.getSuperClasses N) with
    | Some E =>
        match snd E with
        | Some c => Ok (NodeTarget c)
        | None => Fail StringSwitchFellOff
        end
    | None => Fail NoOptionalValue
    end.

Definition slotOf (F : RecordVal.t) : result ChildSlot :=
  d <- cast_RecordRecTy (RecordVal.getType F) ;;
  node <- nodeOf F ;;
  t <- targetOf node ;;
  Ok (mkChildSlot (RecordVal.getName F) d (RecordPtr.getName node) t).

(** A field is a child when its type is the layout class or below it. *)
Definition isChild (F : RecordVal.t) : result bool :=
  match RecordVal.getType F with
  | RecordRecTy p => derives p "Layout"
  | OtherRecTy _ => Ok false
  end.

(** ChildSlotResolver: the child fields in declaration order. *)
Fixpoint slotsOf (fields : list RecordVal.t) : result (list ChildSlot) :=
  match fields with
  | [] => Ok []
  | F :: fields' =>
      c <- isChild F ;;
      if (c : bool) then
        s <- slotOf F ;;
        ss <- slotsOf fields' ;;
        Ok (s :: ss)
      else slotsOf fields'
  end.

Definition nodeDefinition (Node : RecordPtr.t) : result NodeDefinition :=
  R <- RecordKeeper.deref RK Node ;;
  P <- back (Rec.getSuperClasses R) ;;
  ss <- slotsOf (Rec.getValues R) ;;
  Ok (mkNodeDefinition (RecordPtr.getName Node) (RecordPtr.getName P) ss).

(** The node definitions of a category: every def below the category
    class except the umbrella definition, in key order. *)
Fixpoint nodeDefinitions (Nodes : list RecordPtr.t)
  : result (list NodeDefinition) :=
  match Nodes with
  | [] => Ok []
  | Node :: Nodes' =>
      nd <- nodeDefinition Node ;;
      nds <- nodeDefinitions Nodes' ;;
      Ok (nd :: nds)
  end.

Definition isUmbrella (category : string) (Node : RecordPtr.t) : bool :=
  (RecordPtr.getName Node =? "Any" ++ category)%string.

Definition category (C : string) : result (list NodeDefinition) :=
  Nodes <- RecordKeeper.getAllDerivedDefinitions RK C ;;
  nodeDefinitions (filter (fun Node => negb (isUmbrella C Node)) Nodes).

End Resolve.

End Schema.

(** ** A schema to run the generator on

    The scenario of the specification: the statement node [IfStmt] with
    the keyword token [IfKeyword], a condition of category [Expr] and a
    body of category [Stmt]; beside it a node with an identifier token, and
    the umbrella definition [AnyStmt]. In TableGen syntax:
    [def IfStmt : Stmt { Layout IfKeyword = Layout<kw_if>; ... }]. *)

Module Example.

Definition field (Name : string) (Ty : RecTy) (Value : Init) : RecordVal.t :=
  RecordVal.mk Name Ty Value.

Definition Syntax_ : RecTy := RecordRecTy (RecordPtr.Class "Syntax").
Definition Layout_ : RecTy := RecordRecTy (RecordPtr.Class "Layout").
Definition string_ : RecTy := OtherRecTy "string".
Definition bit_ : RecTy := OtherRecTy "bit".

Definition category (Name : string) : string * Rec.t :=
  (Name, Rec.mk [RecordPtr.Class "Syntax"] [field "NAME" string_ (OtherInit "?")]).

Definition token (Name Kind Spelling : string) (Supers : list RecordPtr.t)
  : string * Rec.t :=
  (Name, Rec.mk (RecordPtr.Class "Syntax" :: RecordPtr.Class "Token" :: Supers)
                [field "NAME" string_ (StringInit Name);
                 field "Kind" string_ (StringInit Kind);
                 field "Spelling" string_ (StringInit Spelling)]).

Definition layout (Name Node : string) : string * Rec.t :=
  (Name, Rec.mk [RecordPtr.Class "Layout"]
                [field "NAME" string_ (StringInit Name);
                 field "Node" Syntax_ (DefInit (RecordPtr.Def Node));
                 field "IsRequired" bit_ (OtherInit "1")]).

Definition node (Name Category : string) (Children : list (string * string))
  : string * Rec.t :=
  (Name, Rec.mk [RecordPtr.Class "Syntax"; RecordPtr.Class Category]
                (field "NAME" string_ (StringInit Name)
                 :: map (fun C => field (fst C) Layout_
                                        (DefInit (RecordPtr.Def (snd C))))
                        Children)).

Definition Records : RecordKeeper.t :=
  RecordKeeper.mk
    [ category "Decl"; category "Expr";
      ("Identifier",
       Rec.mk [RecordPtr.Class "Syntax"; RecordPtr.Class "Token"]
              [field "NAME" string_ (OtherInit "?");
               field "Kind" string_ (OtherInit "?");
               field "Spelling" string_ (OtherInit "?")]);
      ("Layout",
       Rec.mk [] [field "NAME" string_ (OtherInit "?");
                  field "Node" Syntax_ (OtherInit "?");
                  field "IsRequired" bit_ (OtherInit "?")]);
      category "Pattern"; category "Stmt"; ("Syntax", Rec.mk [] []);
      category "SyntaxCollection";
      ("Token",
       Rec.mk [RecordPtr.Class "Syntax"]
              [field "NAME" string_ (OtherInit "?");
               field "Kind" string_ (OtherInit "?");
               field "Spelling" string_ (OtherInit "?")]);
      category "Type" ]
    [ node "AnyExpr" "Expr" [];
      node "AnyStmt" "Stmt" [];
      node "GotoStmt" "Stmt" [("GotoKeyword", "anonymous_3");
                              ("Label", "anonymous_4")];
      node "IfStmt" "Stmt" [("IfKeyword", "anonymous_0");
                            ("Condition", "anonymous_1");
                            ("Body", "anonymous_2")];
      layout "anonymous_0" "kw_if";
      layout "anonymous_1" "AnyExpr";
      layout "anonymous_2" "AnyStmt";
      layout "anonymous_3" "kw_goto";
      layout "anonymous_4" "identifier";
      token "identifier" "identifier" EmptyString [RecordPtr.Class "Identifier"];
      token "kw_goto" "kw_goto" "goto" [];
      token "kw_if" "kw_if" "if" [] ].

Definition IfStmt : RecordPtr.t := RecordPtr.Def "IfStmt".

(** The field [Label] of [GotoStmt]. *)
Definition Label : RecordVal.t :=
  field "Label" Layout_ (DefInit (RecordPtr.Def "anonymous_4")).

Definition GotoStmt : RecordPtr.t := RecordPtr.Def "GotoStmt".

(** The same schema with two defective nodes added: [WhileStmt], whose
    keyword token has no spelling, and [LooseStmt], whose child is a node
    in no registered category. *)
Definition Defective : RecordKeeper.t :=
  RecordKeeper.mk
    (RecordKeeper.getClasses Records)
    (RecordKeeper.getDefs Records ++
     [ node "Loose" "Syntax" [];
       node "LooseStmt" "Stmt" [("Child", "anonymous_5")];
       node "WhileStmt" "Stmt" [("WhileKeyword", "anonymous_6")];
       layout "anonymous_5" "Loose";
       layout "anonymous_6" "kw_while";
       ("kw_while",
        Rec.mk [RecordPtr.Class "Syntax"; RecordPtr.Class "Token"]
               [field "NAME" string_ (StringInit "kw_while");
                field "Kind" string_ (StringInit "kw_while")]) ])%list.

Definition interface (C : string) : options.t :=
  options.mk ActionType.GenInterface TargetLanguage.CPlusPlus C.

Definition implementation (C : string) : options.t :=
  options.mk ActionType.GenImplementation TargetLanguage.CPlusPlus C.

End Example.

(** The schema view of the example nodes. *)
Definition IfStmtDefinition : Schema.NodeDefinition :=
  Schema.mkNodeDefinition "IfStmt" "Stmt"
    [ Schema.mkChildSlot "IfKeyword" (RecordPtr.Class "Layout") "kw_if"
        (Schema.TokenTarget (Schema.mkTokenConstraint "kw_if" false "if"));
      Schema.mkChildSlot "Condition" (RecordPtr.Class "Layout") "AnyExpr"
        (Schema.NodeTarget Schema.Expr);
      Schema.mkChildSlot "Body" (RecordPtr.Class "Layout") "AnyStmt"
        (Schema.NodeTarget Schema.Stmt) ].

Definition GotoStmtDefinition : Schema.NodeDefinition :=
  Schema.mkNodeDefinition "GotoStmt" "Stmt"
    [ Schema.mkChildSlot "GotoKeyword" (RecordPtr.Class "Layout") "kw_goto"
        (Schema.TokenTarget (Schema.mkTokenConstraint "kw_goto" false "goto"));
      Schema.mkChildSlot "Label" (RecordPtr.Class "Layout") "identifier"
        (Schema.TokenTarget (Schema.mkTokenConstraint "identifier" true EmptyString)) ].

(** ** The text a node definition calls for

    What each emitted piece must read, as a function of the schema view.
    The declaration file names the handle class [XSyntax] and the wrapper
    class [XSyntaxData]; the definition file uses the node's name [X]
    itself and [XData]. *)

Module Emitted.

Import Schema.

Definition flat (ws : list string) : string :=
  fold_right append EmptyString ws.

(** *** Declarations *)

Definition handleName (nd : NodeDefinition) : string :=
  nodeName nd ++ "Syntax".

Definition wrapperName (nd : NodeDefinition) : string :=
  handleName nd ++ "Data".

Definition cursorEntry (s : ChildSlot) : string :=
  "    " ++ name s ++ "," ++ nl.

Definition cursorEnumeration (nd : NodeDefinition) : string :=
  "  enum class Cursor : CursorIndex {" ++ nl ++
  flat (map cursorEntry (slots nd)) ++
  "  };" ++ nl.

(** The value type of a slot in a signature: the declared type's handle. *)
Definition declaredHandle (s : ChildSlot) : string :=
  RecordPtr.getName (declared s) ++ "Syntax".

(** The updater takes the declared type's handle, reference counted when
    the slot is declared with the token class itself. *)
Definition updaterArgument (s : ChildSlot) : string :=
  if RecordPtr.eqb (declared s) (RecordPtr.Class "Token")
  then "RC<" ++ declaredHandle s ++ ">"
  else declaredHandle s.

Definition accessorSignature (s : ChildSlot) : string :=
  "  llvm::Optional<" ++ declaredHandle s ++ "> get" ++ name s ++
  "() const;" ++ nl.

Definition updaterSignature (nd : NodeDefinition) (s : ChildSlot) : string :=
  "  " ++ handleName nd ++ " with" ++ name s ++ "(" ++ updaterArgument s ++
  " New" ++ name s ++ ") const;" ++ nl ++ nl.

Definition kindPredicate (nd : NodeDefinition) : string :=
  "  static bool classof(const Syntax *S) {" ++ nl ++
  "    return S->getKind() == SyntaxKind::" ++ handleName nd ++ ";" ++ nl ++
  "  }" ++ nl.

Definition handleHead (nd : NodeDefinition) : string :=
  "class " ++ handleName nd ++ " final : public Syntax {" ++ nl ++
  "  friend struct SyntaxFactory;" ++ nl ++
  "  friend class " ++ wrapperName nd ++ ";" ++ nl ++
  "  friend class SyntaxData;" ++ nl ++
  nl ++
  "  using DataType = " ++ wrapperName nd ++ ";" ++ nl ++
  nl.

Definition handleConstructor (nd : NodeDefinition) : string :=
  "  " ++ handleName nd ++ "(RC<SyntaxData> Root, const " ++ wrapperName nd ++
  "*Data)" ++ nl ++
  "    : " ++ parent nd ++ "Syntax(Root, Data) {}" ++ nl ++
  "public:" ++ nl.

Definition handleDeclaration (nd : NodeDefinition) : string :=
  handleHead nd ++
  cursorEnumeration nd ++
  handleConstructor nd ++
  flat (map (fun s => accessorSignature s ++ updaterSignature nd s)
            (slots nd)) ++
  kindPredicate nd ++
  "};" ++ nl ++ nl.

Definition wrapperDeclaration (nd : NodeDefinition) : string :=
  "class " ++ wrapperName nd ++ " final : public SyntaxData {" ++ nl ++
  "  friend class SyntaxData;" ++ nl ++
  "  friend struct SyntaxFactory;" ++ nl ++
  nl ++
  "  " ++ wrapperName nd ++
  "(RC<RawSyntax> Raw, const SyntaxData *Parent = nullptr, CursorIndex IndexInParent = 0);"
  ++ nl ++
  nl ++
  "  static RC<" ++ wrapperName nd ++
  "> make(RC<RawSyntax> Raw, const SyntaxData *Parent = nullptr, CursorIndex IndexInParent = 0);"
  ++ nl ++
  "  static RC<" ++ wrapperName nd ++ "> makeBlank();" ++ nl ++
  nl ++
  "public:" ++ nl ++
  "  static bool classof(const SyntaxData *SD) {" ++ nl ++
  "    return S->getKind() == SyntaxKind::" ++ nodeName nd ++ ";" ++ nl ++
  "  }" ++ nl ++
  "};" ++ nl ++ nl.

Definition declaration (nd : NodeDefinition) : string :=
  handleDeclaration nd ++ wrapperDeclaration nd.

(** *** Token assertions *)

(** The assertion on a token held in [variable]: kind only for an
    identifier-like constraint, kind and exact spelling otherwise. *)
Definition kindAssertion (variable kind : string) : string :=
  "assert(" ++ variable ++ "->getTokenKind() == " ++ kind ++ ");" ++ nl.

Definition kindAndSpellingAssertion (variable kind spelling : string)
  : string :=
  "  syntax_assert_token_is(" ++ variable ++ ", " ++ kind ++ ", " ++
  dq ++ spelling ++ dq ++ ");" ++ nl.

Definition tokenAssertion (variable : string) (c : TokenConstraint) : string :=
  if identifierLike c
  then kindAssertion variable (kind c)
  else kindAndSpellingAssertion variable (kind c) (spelling c).

(** *** The constructor of the wrapper *)

Definition dataName (nd : NodeDefinition) : string :=
  nodeName nd ++ "Data".

(** The raw child at a slot's cursor. *)
Definition rawChild (s : ChildSlot) : string :=
  "Raw->getChild(Cursor::" ++ name s ++ ")".

Definition runtimeKindAssertion (nd : NodeDefinition) : string :=
  "  assert(Raw->getKind() == SyntaxKind::" ++ nodeName nd ++ ");" ++ nl.

Definition arityAssertion (arity : string) : string :=
  "  assert(Raw->Layout.size() == " ++ arity ++ ");" ++ nl.

Definition slotAssertion (s : ChildSlot) : string :=
  match target s with
  | TokenTarget c => tokenAssertion (rawChild s) c
  | NodeTarget _ =>
      "  assert(" ++ rawChild s ++ "->getKind() == SyntaxKind::" ++
      typeName s ++ ");" ++ nl
  end.

Definition constructorHead (nd : NodeDefinition) : string :=
  dataName nd ++ "::" ++ dataName nd ++
  "(RC<RawSyntax> Raw, const SyntaxData *Data, const CursorIndex IndexInParent)"
  ++ nl ++
  "  : " ++ parent nd ++ "Data(Raw, Data, IndexInParent) {" ++ nl.

Definition constructorDefinition (nd : NodeDefinition) : string :=
  constructorHead nd ++
  runtimeKindAssertion nd ++
  arityAssertion (decimal (List.length (slots nd))) ++
  flat (map slotAssertion (slots nd)) ++
  "}" ++ nl ++ nl.

(** *** make and makeBlank *)

Definition makeDefinition (nd : NodeDefinition) : string :=
  "RC<" ++ dataName nd ++ ">" ++ nl ++
  dataName nd ++
  "::make(RC<RawSyntax> Raw, const SyntaxData *Parent, const CursorIndex IndexInParent) {"
  ++ nl ++
  "  return RC<" ++ dataName nd ++ "> {" ++ nl ++
  "    new " ++ dataName nd ++ " { Raw, Parent, IndexInParent }" ++ nl ++
  "  };" ++ nl ++
  "}" ++ nl ++ nl.

Definition missingToken (kind spelling : string) : string :=
  "    TokenSyntax::missingToken(tok::" ++ kind ++ ", " ++ dq ++ spelling ++
  dq ++ ")," ++ nl.

Definition missingNode (placeholderKind : string) : string :=
  "    RawSyntax::missing(SyntaxKind::" ++ placeholderKind ++ ")," ++ nl.

(** The placeholder of a slot. *)
Definition placeholder (s : ChildSlot) : string :=
  match target s with
  | TokenTarget c => missingToken (kind c) (spelling c)
  | NodeTarget c => missingNode (missingKindFor c)
  end.

(** [makeBlank] returns [make] applied to a raw node of the node's kind
    with the given children. *)
Definition makeBlankDefinition (nd : NodeDefinition) (children : string)
  : string :=
  "RC<" ++ dataName nd ++ ">" ++ nl ++
  dataName nd ++ "::makeBlank() {" ++ nl ++
  "  return make(RawSyntax::make(SyntaxKind::" ++ nodeName nd ++ "," ++ nl ++
  "  {" ++ nl ++
  children ++
  "  }," ++ nl ++
  "  SourcePresence::Present));" ++ nl ++
  "}" ++ nl ++ nl.

Definition wrapperDefinition (nd : NodeDefinition) : string :=
  constructorDefinition nd ++
  makeDefinition nd ++
  makeBlankDefinition nd (flat (map placeholder (slots nd))).

(** *** Accessors and updaters *)

(** The accessor as the generator prints it. Its last statement builds the
    value it returns from the class named [returned]. *)
Definition accessorDefinition (nd : NodeDefinition) (s : ChildSlot)
    (returned : string) : string :=
  "llvm::Optional<" ++ typeName s ++ ">" ++ nl ++
  nodeName nd ++ "::get" ++ name s ++ "() const {" ++ nl ++
  "  auto RawChild = getRaw()->getChild(Cursor::" ++ name s ++ ";" ++ nl ++
  "  if (RawChild->isMissing()) {" ++ nl ++
  "    return llvm::None;" ++ nl ++
  "  }" ++ nl ++
  "  auto *MyData = getUnsafeData<" ++ nodeName nd ++ ">();" ++ nl ++
  "  auto &ChildPtr = *reinterpret_cast<std::atomic<uintptr_t>*>(" ++ nl ++
  "    &MyData->Cached" ++ name s ++ ");" ++ nl ++
  "  SyntaxData::realizeSyntaxNode<" ++ typeName s ++
  ">(ChildPtr, RawChild, MyData, cursorIndex(Cursor::" ++ name s ++ "));" ++
  nl ++
  "  return " ++ returned ++ "{ Root, MyData->Cached" ++ name s ++
  ".get() };" ++ nl ++
  "}" ++ nl ++ nl.

(** The replacement an updater is called with. *)
Definition replacement (s : ChildSlot) : string :=
  "New" ++ name s.

(** The copy-on-write replacement of the child at the slot's cursor by
    [child], returning a handle of the node's own type. *)
Definition replaceChild (nd : NodeDefinition) (s : ChildSlot) (child : string)
  : string :=
  "  return Data->replaceChild<" ++ nodeName nd ++ ">(" ++ child ++
  ", Cursor::" ++ name s ++ ");" ++ nl.

Definition updaterHead (nd : NodeDefinition) (s : ChildSlot) : string :=
  nodeName nd ++ nl ++
  nodeName nd ++ "::with" ++ name s ++ "(" ++ typeName s ++ " " ++
  replacement s ++ ") const {" ++ nl.

Definition updaterBody (nd : NodeDefinition) (s : ChildSlot) : string :=
  match target s with
  | TokenTarget c =>
      tokenAssertion (replacement s) c ++
      replaceChild nd s (replacement s)
  | NodeTarget _ =>
      replaceChild nd s (replacement s ++ "->getRaw()")
  end.

Definition updaterDefinition (nd : NodeDefinition) (s : ChildSlot) : string :=
  updaterHead nd s ++ updaterBody nd s ++ "}" ++ nl ++ nl.

Definition handleDefinition (nd : NodeDefinition) : string :=
  flat (map (fun s => accessorDefinition nd s (nodeName nd) ++
                      updaterDefinition nd s)
            (slots nd)).

Definition definition (nd : NodeDefinition) : string :=
  "#pragma mark - " ++ nodeName nd ++ " API" ++ nl ++ nl ++
  handleDefinition nd ++
  "#pragma mark - " ++ nodeName nd ++ " Data" ++ nl ++ nl ++
  wrapperDefinition nd.

End Emitted.

(** The category set [SyntaxTableGenMain] builds before it dispatches. *)
Definition registry (RK : RecordKeeper.t) : SmallPtrSet.t :=
  SmallPtrSet.empty
  |> SmallPtrSet.insert (RecordKeeper.getClass RK "Decl")
  |> SmallPtrSet.insert (RecordKeeper.getClass RK "Stmt")
  |> SmallPtrSet.insert (RecordKeeper.getClass RK "Expr")
  |> SmallPtrSet.insert (RecordKeeper.getClass RK "Type")
  |> SmallPtrSet.insert (RecordKeeper.getClass RK "Pattern")
  |> SmallPtrSet.insert (RecordKeeper.getClass RK "Token")
  |> SmallPtrSet.insert (RecordKeeper.getClass RK "SyntaxCollection").

(** A printer emits [w] and returns [a]: from any stream it succeeds, and
    appends exactly [w]. *)
Definition emits {A : Type} (m : Printer A) (a : A) (w : string) : Prop :=
  forall os, m os = Ok (a, os ++ w).

(** A field and the slot it resolves to. *)
Definition resolved (RK : RecordKeeper.t) (Child : RecordVal.t)
    (s : Schema.ChildSlot) : Prop :=
  Schema.isChild RK Child = Ok true /\ Schema.slotOf RK Child = Ok s.

(** Reading a decimal literal back. *)
Definition readDecimal (s : string) : option nat :=
  match NilEmpty.uint_of_string s with
  | Some d => Some (Nat.of_uint d)
  | None => None
  end.

(** The category names [getCategory] recognizes. *)
Definition recognized : list string :=
  ["Decl"; "Expr"; "Stmt"; "Type"; "Pattern"; "SyntaxFactory";
   "SyntaxRewriter"].

(** The categories that select tree-type generation. *)
Definition treeCategory (c : Category.t) : bool :=
  match c with
  | Category.Decl | Category.Expr | Category.Stmt | Category.Type_
  | Category.Pattern => true
  | _ => false
  end.

(** ** Properties of runs

    The vocabulary of the properties proved beyond the text of single
    nodes. *)

(** The boolean [isLayout] gives on a field, an abort counting as no. *)
Definition layoutTyped (RK : RecordKeeper.t) (F : RecordVal.t) : bool :=
  match isLayout RK (RecordVal.getType F) with
  | Ok b => b
  | Fail _ => false
  end.

(** [isLayout] returns on the field. *)
Definition layoutDecided (RK : RecordKeeper.t) (F : RecordVal.t) : bool :=
  match isLayout RK (RecordVal.getType F) with
  | Ok _ => true
  | Fail _ => false
  end.

(** The names under which [SyntaxTableGenMain] registers categories. *)
Definition categoryClasses : list string :=
  ["Decl"; "Stmt"; "Expr"; "Type"; "Pattern"; "Token"; "SyntaxCollection"].

(** A pointer to an existing class of a registered name. *)
Definition registeredClass (RK : RecordKeeper.t) (A : RecordPtr.t) : Prop :=
  exists C, In C categoryClasses /\ RecordKeeper.getClass RK C = Some A.

(** The aborts a defective schema causes: a value of the wrong kind, a
    missing field, a pointer into nothing, a node in no category, a missing
    class or string, a record without superclass. The other three, a failed
    assertion, an unmatched switch and unreachable code, would be defects
    of the program. *)
Definition schemaDefect (e : Abort) : Prop :=
  In e [BadCast; NullPointer; DanglingPointer; NoOptionalValue; FatalError;
        EmptyArray].

Definition defectOnly {A : Type} (r : result A) : Prop :=
  forall e, r = Fail e -> schemaDefect e.

Definition abortsOnDefect {A : Type} (m : Printer A) : Prop :=
  forall os e, m os = Fail e -> schemaDefect e.

(** A printer that, when it returns, returns [a]. *)
Definition returns {A : Type} (a : A) (m : Printer A) : Prop :=
  forall os a' os', m os = Ok (a', os') -> a' = a.

(** How [TableGenMain] ends a run whose callback returned false with the
    stream [os], or aborted. *)
Definition ended (r : result (bool * raw_ostream)) : Outcome :=
  match r with
  | Ok (_, os) => mkOutcome (Exited 0) [] (Some os)
  | Fail e => mkOutcome (Aborted e) [] None
  end.


(** * Proofs *)

(** ** Strings *)

Lemma append_assoc (a b c : string) : (a ++ b) ++ c = a ++ (b ++ c).
Proof.
  induction a as [|x a IH]; simpl; [reflexivity | now rewrite IH].
Qed.

Lemma append_nil_r (a : string) : a ++ EmptyString = a.
Proof.
  induction a as [|x a IH]; simpl; [reflexivity | now rewrite IH].
Qed.

Lemma flat_app (u v : list string) :
  Emitted.flat (u ++ v)%list = Emitted.flat u ++ Emitted.flat v.
Proof.
  induction u as [|x u IH]; simpl; [reflexivity |].
  now rewrite IH, append_assoc.
Qed.

(** Both sides are brought to right-nested form and compared. *)
Ltac text_eq :=
  repeat rewrite append_assoc; simpl; repeat rewrite append_assoc;
  repeat rewrite append_nil_r; reflexivity.

(** ** The printer combinators *)

Lemma emits_eq {A : Type} (m : Printer A) (a : A) (w w' : string) :
  emits m a w -> w = w' -> emits m a w'.
Proof. now intros H <-. Qed.

Lemma emits_ret {A : Type} (a : A) : emits (ret a) a EmptyString.
Proof. intros os; simpl. now rewrite append_nil_r. Qed.

Lemma emits_lift {A : Type} (r : result A) (a : A) :
  r = Ok a -> emits (lift r) a EmptyString.
Proof. intros -> os; simpl. now rewrite append_nil_r. Qed.

Lemma emits_bind {A B : Type} (m : Printer A) (k : A -> Printer B)
    (a : A) (b : B) (w1 w2 : string) :
  emits m a w1 -> emits (k a) b w2 -> emits (bind m k) b (w1 ++ w2).
Proof.
  intros Hm Hk os; simpl. rewrite Hm, Hk. now rewrite append_assoc.
Qed.

Lemma emits_OS : emits OS tt EmptyString.
Proof. apply emits_ret. Qed.

Lemma emits_shl (p : Printer unit) (s w : string) :
  emits p tt w -> emits (p << s) tt (w ++ s).
Proof.
  intros Hp os; unfold shl. rewrite Hp. now rewrite append_assoc.
Qed.

Lemma emits_for_each {A S : Type} (body : A -> Printer unit)
    (text : S -> string) (R : A -> S -> Prop) :
  (forall X s, R X s -> emits (body X) tt (text s)) ->
  forall Xs ss, Forall2 R Xs ss ->
  emits (for_each Xs body) tt (Emitted.flat (map text ss)).
Proof.
  intros Hbody Xs ss HF.
  induction HF as [|X s Xs ss HR _ IH]; simpl.
  - apply emits_ret.
  - eapply emits_bind; [apply Hbody, HR | apply IH].
Qed.

(** Runs a straight-line printer, taking the value of each lookup from the
    context. *)
Ltac emit_step :=
  lazymatch goal with
  | |- emits (bind _ _) _ _ => eapply emits_bind; cbv beta
  | |- emits (ret _) _ _ => apply emits_ret
  | |- emits (lift _) _ _ => apply emits_lift; first [eassumption | reflexivity]
  | |- emits OS _ _ => apply emits_OS
  | |- emits (shl _ _) _ _ => apply emits_shl
  | |- emits (if _ then _ else _) _ _ => progress cbv beta iota
  end.

Ltac emit := repeat emit_step.

(** ** Pointers and the category registry *)

Lemma RecordPtr_eqb_eq (p q : RecordPtr.t) :
  RecordPtr.eqb p q = true <-> p = q.
Proof.
  destruct p as [n|n], q as [m|m]; simpl;
    try (split; [discriminate | discriminate]);
    rewrite String.eqb_eq; split; congruence.
Qed.

Lemma eqb_nullable_eq (p q : option RecordPtr.t) :
  RecordPtr.eqb_nullable p q = true <-> p = q.
Proof.
  destruct p as [p|], q as [q|]; simpl.
  - rewrite RecordPtr_eqb_eq. split; congruence.
  - split; discriminate.
  - split; discriminate.
  - split; reflexivity.
Qed.

Lemma count_In (S : SmallPtrSet.t) (p : option RecordPtr.t) :
  SmallPtrSet.count S p = true <-> In p S.
Proof.
  unfold SmallPtrSet.count. rewrite existsb_exists. split.
  - intros (x & Hx & He). apply eqb_nullable_eq in He. now subst.
  - intros H. exists p. split; [exact H | now apply eqb_nullable_eq].
Qed.

Lemma insert_In (S : SmallPtrSet.t) (p x : option RecordPtr.t) :
  In x (SmallPtrSet.insert p S) <-> x = p \/ In x S.
Proof.
  unfold SmallPtrSet.insert.
  destruct (SmallPtrSet.count S p) eqn:Hc.
  - apply count_In in Hc. split; [now right | intros [->|H]; assumption].
  - rewrite in_app_iff. simpl. split.
    + intros [H|[H|[]]]; [now right | now left].
    + intros [->|H]; [right; now left | now left].
Qed.

(** The registry holds the class pointers of the registered names. *)
Lemma registry_In (RK : RecordKeeper.t) (x : option RecordPtr.t) :
  In x (registry RK) <->
  exists E, In E Schema.registered /\ x = RecordKeeper.getClass RK (fst E).
Proof.
  unfold registry. repeat rewrite insert_In. simpl. split.
  - intros H.
    repeat destruct H as [->|H]; try (now destruct H);
      first
        [ exists ("Decl", Some Schema.Decl); split; [tauto | reflexivity]
        | exists ("Stmt", Some Schema.Stmt); split; [tauto | reflexivity]
        | exists ("Expr", Some Schema.Expr); split; [tauto | reflexivity]
        | exists ("Type", Some Schema.Type_); split; [tauto | reflexivity]
        | exists ("Pattern", Some Schema.Pattern); split; [tauto | reflexivity]
        | exists ("Token", None); split; [tauto | reflexivity]
        | exists ("SyntaxCollection", Some Schema.SyntaxCollection);
          split; [tauto | reflexivity] ].
  - intros (E & HE & ->).
    repeat destruct HE as [<-|HE]; simpl; tauto.
Qed.

Lemma getClass_Some (RK : RecordKeeper.t) (C : string) (A : RecordPtr.t) :
  RecordKeeper.getClass RK C = Some A <->
  A = RecordPtr.Class C /\ Schema.classExists RK C = true.
Proof.
  unfold RecordKeeper.getClass, Schema.classExists.
  destruct (RecordKeeper.lookup _ C); split.
  - intros [= <-]. now split.
  - now intros [-> _].
  - discriminate.
  - intros [_ H]. discriminate.
Qed.

Lemma find_registered (C : string) (E : string * option Schema.NodeCategory) :
  find (fun E => (fst E =? C)%string) Schema.registered = Some E ->
  In E Schema.registered /\ fst E = C.
Proof.
  intros H. apply find_some in H. now rewrite String.eqb_eq in H.
Qed.

Lemma registered_find (E : string * option Schema.NodeCategory) :
  In E Schema.registered ->
  find (fun E' => (fst E' =? fst E)%string) Schema.registered = Some E.
Proof.
  intros H. simpl in H.
  repeat destruct H as [<-|H]; try reflexivity. destruct H.
Qed.

(** A pointer counts as a syntax category exactly when it is registered. *)
Lemma count_registry (RK : RecordKeeper.t) (A : RecordPtr.t) :
  SmallPtrSet.count (registry RK) (Some A) =
  match Schema.registration RK A with Some _ => true | None => false end.
Proof.
  destruct (Schema.registration RK A) as [E|] eqn:HR.
  - apply count_In, registry_In.
    destruct A as [C|D]; unfold Schema.registration in HR; [|discriminate].
    destruct (Schema.classExists RK C) eqn:HC; [|discriminate].
    apply find_registered in HR. destruct HR as [HE <-].
    exists E. split; [exact HE|]. symmetry. now apply getClass_Some.
  - destruct (SmallPtrSet.count (registry RK) (Some A)) eqn:Hc; [|reflexivity].
    apply count_In, registry_In in Hc. destruct Hc as (E & HE & Hg).
    symmetry in Hg. apply getClass_Some in Hg. destruct Hg as [-> HC].
    unfold Schema.registration in HR. rewrite HC in HR.
    now rewrite (registered_find E HE) in HR.
Qed.

(** The first superclass the program finds in its set is the schema's
    resolved category. *)
Lemma resolve_find (RK : RecordKeeper.t) (ancestry : list RecordPtr.t)
    (E : string * option Schema.NodeCategory) :
  Schema.resolve RK ancestry = Some E ->
  exists A,
    find (fun Super => SmallPtrSet.count (registry RK) (Some Super)) ancestry
      = Some A /\
    Schema.registration RK A = Some E.
Proof.
  induction ancestry as [|A ancestry IH]; simpl; [discriminate|].
  rewrite count_registry.
  destruct (Schema.registration RK A) as [E'|] eqn:HR.
  - intros [= ->]. now exists A.
  - exact IH.
Qed.

(** The program's switch over the category name agrees with the table. *)
Lemma switch_missingKind (RK : RecordKeeper.t) (A : RecordPtr.t)
    (E : string * option Schema.NodeCategory) (c : Schema.NodeCategory) :
  Schema.registration RK A = Some E -> snd E = Some c ->
  (StringSwitch.StringSwitch (RecordPtr.getName A)
   |> StringSwitch.Case "Decl" "MissingDecl"
   |> StringSwitch.Case "Expr" "MissingExpr"
   |> StringSwitch.Case "Stmt" "MissingStmt"
   |> StringSwitch.Case "Type" "MissingType"
   |> StringSwitch.Case "Pattern" "MissingPattern"
   |> StringSwitch.Case "SyntaxCollection" "MissingSyntaxCollection"
   |> StringSwitch.convert) = Ok (Schema.missingKindFor c).
Proof.
  intros HR Hc.
  destruct A as [C|D]; unfold Schema.registration in HR; [|discriminate].
  destruct (Schema.classExists RK C); [|discriminate].
  apply find_registered in HR. destruct HR as [HE <-].
  simpl in HE.
  repeat destruct HE as [<-|HE]; simpl in Hc; try discriminate;
    try (injection Hc as <-; reflexivity).
  destruct HE.
Qed.

(** ** The program's lookups against the schema view *)

Lemma bind_Ok {A B : Type} (m : result A) (k : A -> result B) (b : B) :
  bind m k = Ok b -> exists a, m = Ok a /\ k a = Ok b.
Proof.
  destruct m as [a|e]; simpl; [|discriminate]. intros H. now exists a.
Qed.

Lemma existsb_never {A : Type} (l : list A) :
  existsb (fun _ => false) l = false.
Proof. induction l; simpl; auto. Qed.

Lemma is_derives (RK : RecordKeeper.t) (p : RecordPtr.t) (C : string)
    (b : bool) :
  Schema.derives RK p C = Ok b -> is_ RK (RecordRecTy p) C = Ok b.
Proof.
  unfold Schema.derives, is_, RecordRecTy_getAsString. intros H.
  apply bind_Ok in H. destruct H as (R & HR & H).
  rewrite HR. simpl. injection H as <-.
  destruct (RecordPtr.getName p =? C)%string; simpl; [reflexivity|].
  unfold Rec.isSubClassOf, RecordKeeper.getClass, Schema.classExists.
  destruct (RecordKeeper.lookup _ C); simpl; [reflexivity|].
  now rewrite existsb_never.
Qed.

Lemma isChild_isLayout (RK : RecordKeeper.t) (F : RecordVal.t) (b : bool) :
  Schema.isChild RK F = Ok b -> isLayout RK (RecordVal.getType F) = Ok b.
Proof.
  unfold Schema.isChild, isLayout.
  destruct (RecordVal.getType F) as [p|s]; [apply is_derives | trivial].
Qed.

(** The vector [getChildrenOf] builds is the list of fields the schema
    resolves as slots, in the same order. *)
Lemma getChildrenOf_loop_slots (RK : RecordKeeper.t)
    (Values : list RecordVal.t) :
  forall ss, Schema.slotsOf RK Values = Ok ss ->
  forall acc, exists Children,
    getChildrenOf_loop RK Values acc = Ok (acc ++ Children)%list /\
    Forall2 (resolved RK) Children ss.
Proof.
  induction Values as [|F Values IH]; simpl; intros ss H acc.
  - injection H as <-. exists []. now rewrite app_nil_r.
  - apply bind_Ok in H. destruct H as (c & Hc & H).
    rewrite (isChild_isLayout _ _ _ Hc). simpl.
    destruct c; simpl.
    + apply bind_Ok in H. destruct H as (s & Hs & H).
      apply bind_Ok in H. destruct H as (ss' & Hss & H).
      injection H as <-.
      destruct (IH _ Hss (acc ++ [F])%list) as (Children & HL & HF).
      exists (F :: Children). split.
      * rewrite HL. now rewrite <- app_assoc.
      * constructor; [now split | exact HF].
    + apply IH, H.
Qed.

Lemma getChildrenOf_slots (RK : RecordKeeper.t) (Node : RecordPtr.t)
    (nd : Schema.NodeDefinition) :
  Schema.nodeDefinition RK Node = Ok nd ->
  exists R P Children,
    RecordKeeper.deref RK Node = Ok R /\
    back (Rec.getSuperClasses R) = Ok P /\
    getChildrenOf RK Node = Ok Children /\
    Forall2 (resolved RK) Children (Schema.slots nd) /\
    Schema.nodeName nd = RecordPtr.getName Node /\
    Schema.parent nd = RecordPtr.getName P.
Proof.
  unfold Schema.nodeDefinition, getChildrenOf. intros H.
  apply bind_Ok in H. destruct H as (R & HR & H).
  apply bind_Ok in H. destruct H as (P & HP & H).
  apply bind_Ok in H. destruct H as (ss & Hss & H).
  injection H as <-.
  destruct (getChildrenOf_loop_slots RK _ _ Hss []) as (Children & HL & HF).
  exists R, P, Children. rewrite HR. simpl. now repeat split.
Qed.

(** What the program's helpers return on a field the schema resolves. *)
Lemma resolved_lookups (RK : RecordKeeper.t) (Child : RecordVal.t)
    (s : Schema.ChildSlot) :
  resolved RK Child s ->
  exists node,
    Schema.name s = RecordVal.getName Child /\
    Schema.typeName s = RecordPtr.getName node /\
    cast_RecordRecTy (RecordVal.getType Child) = Ok (Schema.declared s) /\
    isLayout RK (RecordVal.getType Child) = Ok true /\
    getLayoutNodeType RK Child = Ok node /\
    getLayoutNodeRecord_Child RK Child = Ok node /\
    Schema.targetOf RK node = Ok (Schema.target s).
Proof.
  intros [Hc Hs]. apply isChild_isLayout in Hc.
  unfold Schema.slotOf in Hs.
  apply bind_Ok in Hs. destruct Hs as (d & Hd & Hs).
  apply bind_Ok in Hs. destruct Hs as (node & Hnode & Hs).
  apply bind_Ok in Hs. destruct Hs as (t & Ht & Hs).
  injection Hs as <-.
  unfold Schema.nodeOf in Hnode.
  apply bind_Ok in Hnode. destruct Hnode as (layout & Hlayout & Hnode).
  apply bind_Ok in Hnode. destruct Hnode as (L & HL & Hnode).
  exists node. simpl. repeat split; trivial.
  - unfold getLayoutNodeType. rewrite Hc. simpl.
    rewrite Hlayout. simpl. rewrite HL. simpl.
    destruct (Rec.getValue L "Node"); [|discriminate].
    now rewrite Hnode.
  - unfold getLayoutNodeRecord_Child, getLayoutNodeRecord. rewrite Hc. simpl.
    rewrite Hlayout. simpl. rewrite HL. simpl.
    exact Hnode.
Qed.

Lemma targetOf_token (RK : RecordKeeper.t) (node : RecordPtr.t)
    (c : Schema.TokenConstraint) :
  Schema.targetOf RK node = Ok (Schema.TokenTarget c) ->
  isToken RK (RecordRecTy node) = Ok true /\
  isIdentifier RK (RecordRecTy node) = Ok (Schema.identifierLike c) /\
  exists N,
    RecordKeeper.deref RK node = Ok N /\
    Rec.getValueAsString N "Kind" = Ok (Schema.kind c) /\
    Rec.getValueAsString N "Spelling" = Ok (Schema.spelling c).
Proof.
  unfold Schema.targetOf. intros H.
  apply bind_Ok in H. destruct H as (isTok & HT & H). destruct isTok.
  - apply bind_Ok in H. destruct H as (c' & Hc & H). injection H as <-.
    unfold Schema.tokenConstraint in Hc.
    apply bind_Ok in Hc. destruct Hc as (N & HN & Hc).
    apply bind_Ok in Hc. destruct Hc as (k & Hk & Hc).
    apply bind_Ok in Hc. destruct Hc as (sp & Hsp & Hc).
    apply bind_Ok in Hc. destruct Hc as (i & Hi & Hc).
    injection Hc as <-. simpl.
    split; [now apply is_derives|]. split; [now apply is_derives|].
    now exists N.
  - apply bind_Ok in H. destruct H as (N & HN & H).
    destruct (Schema.resolve RK _) as [E|]; [|discriminate].
    destruct (snd E); discriminate.
Qed.

Lemma targetOf_node (RK : RecordKeeper.t) (node : RecordPtr.t)
    (c : Schema.NodeCategory) :
  Schema.targetOf RK node = Ok (Schema.NodeTarget c) ->
  isToken RK (RecordRecTy node) = Ok false /\
  forall Child,
    getLayoutNodeRecord_Child RK Child = Ok node ->
    getMissingSyntaxKind RK (registry RK) Child = Ok (Schema.missingKindFor c).
Proof.
  unfold Schema.targetOf. intros H.
  apply bind_Ok in H. destruct H as (isTok & HT & H). destruct isTok.
  - apply bind_Ok in H. destruct H as (c' & Hc & H). discriminate.
  - apply bind_Ok in H. destruct H as (N & HN & H).
    split; [now apply is_derives|].
    intros Child HC. unfold getMissingSyntaxKind, getSyntaxCategory.
    rewrite HC. simpl. rewrite HN. simpl.
    destruct (Schema.resolve RK _) as [E|] eqn:HR; [|discriminate].
    destruct (snd E) as [c'|] eqn:HE; [|discriminate].
    injection H as <-.
    apply resolve_find in HR. destruct HR as (A & -> & HA).
    exact (switch_missingKind RK A E c' HA HE).
Qed.

(** The spelling [getTokenSpelling] finds is the token's string field. *)
Lemma getTokenSpelling_field (RK : RecordKeeper.t) (Value : RecordVal.t)
    (node : RecordPtr.t) (N : Rec.t) (spelling : string) :
  isLayout RK (RecordVal.getType Value) = Ok true ->
  getLayoutNodeRecord_Child RK Value = Ok node ->
  RecordKeeper.deref RK node = Ok N ->
  Rec.getValueAsString N "Spelling" = Ok spelling ->
  getTokenSpelling RK Value = Ok spelling.
Proof.
  intros HL HN HD HS. unfold getTokenSpelling.
  rewrite HL. simpl. rewrite HN. simpl. rewrite HD. simpl.
  unfold Rec.getValueAsString, Rec.getValue in HS.
  destruct (find _ (Rec.getValues N)) as [Field|]; [|discriminate].
  destruct (RecordVal.getValue Field); try discriminate.
  now injection HS as <-.
Qed.

(** ** What each printer emits *)

Lemma printTokenAssertion_emits (RK : RecordKeeper.t) (variable : string)
    (Child : RecordVal.t) (s : Schema.ChildSlot) (c : Schema.TokenConstraint) :
  resolved RK Child s ->
  Schema.target s = Schema.TokenTarget c ->
  emits (printTokenAssertion RK variable Child) tt
        (Emitted.tokenAssertion variable c).
Proof.
  intros HR HT.
  destruct (resolved_lookups RK Child s HR)
    as (node & _ & _ & _ & HL & HTy & HRec & Htarget).
  rewrite HT in Htarget.
  destruct (targetOf_token RK node c Htarget)
    as (Htok & Hid & N & HN & Hkind & Hspelling).
  pose proof (getTokenSpelling_field RK Child node N _ HL HRec HN Hspelling)
    as Hsp.
  unfold printTokenAssertion, Emitted.tokenAssertion.
  destruct (Schema.identifierLike c).
  - eapply emits_eq; [emit|]. unfold Emitted.kindAssertion. text_eq.
  - eapply emits_eq; [emit|]. unfold Emitted.kindAndSpellingAssertion. text_eq.
Qed.

Lemma printSyntaxDataImplementation_emits (RK : RecordKeeper.t)
    (Node : RecordPtr.t) (nd : Schema.NodeDefinition) :
  Schema.nodeDefinition RK Node = Ok nd ->
  emits (printSyntaxDataImplementation RK (registry RK) Node) false
        (Emitted.wrapperDefinition nd).
Proof.
  intros H.
  destruct (getChildrenOf_slots RK Node nd H)
    as (R & P & Children & HR & HP & HC & HF & Hname & Hparent).
  unfold printSyntaxDataImplementation.
  eapply emits_eq.
  - emit.
    + (* the assertions of the constructor, slot by slot *)
      eapply (emits_for_each _ Emitted.slotAssertion (resolved RK));
        [|exact HF].
      intros Child s Hs.
      destruct (resolved_lookups RK Child s Hs)
        as (node & Hn & Hty & _ & HL & HTy & HRec & Htarget).
      unfold Emitted.slotAssertion, Emitted.rawChild.
      rewrite Hn, Hty.
      destruct (Schema.target s) as [c|c] eqn:HT.
      * destruct (targetOf_token RK node c Htarget) as (Htok & _).
        eapply emits_eq;
          [emit; eapply printTokenAssertion_emits; eassumption|].
        text_eq.
      * destruct (targetOf_node RK node c Htarget) as (Htok & _).
        eapply emits_eq; [emit|]. text_eq.
    + (* the placeholders of makeBlank, slot by slot *)
      eapply (emits_for_each _ Emitted.placeholder (resolved RK));
        [|exact HF].
      intros Child s Hs.
      destruct (resolved_lookups RK Child s Hs)
        as (node & Hn & Hty & _ & HL & HTy & HRec & Htarget).
      unfold Emitted.placeholder.
      destruct (Schema.target s) as [c|c] eqn:HT.
      * destruct (targetOf_token RK node c Htarget)
          as (Htok & _ & N & HN & Hkind & Hspelling).
        eapply emits_eq; [emit|]. unfold Emitted.missingToken. text_eq.
      * destruct (targetOf_node RK node c Htarget) as (Htok & Hmissing).
        specialize (Hmissing Child HRec).
        eapply emits_eq; [emit|]. unfold Emitted.missingNode. text_eq.
  - unfold Emitted.wrapperDefinition, Emitted.constructorDefinition,
      Emitted.constructorHead, Emitted.runtimeKindAssertion,
      Emitted.arityAssertion, Emitted.makeDefinition,
      Emitted.makeBlankDefinition, Emitted.dataName.
    rewrite Hname, Hparent, (Forall2_length HF). text_eq.
Qed.

Lemma printSyntaxImplementation_emits (RK : RecordKeeper.t)
    (Node : RecordPtr.t) (nd : Schema.NodeDefinition) :
  Schema.nodeDefinition RK Node = Ok nd ->
  emits (printSyntaxImplementation RK Node) false
        (Emitted.handleDefinition nd).
Proof.
  intros H.
  destruct (getChildrenOf_slots RK Node nd H)
    as (R & P & Children & HR & HP & HC & HF & Hname & Hparent).
  unfold printSyntaxImplementation.
  eapply emits_eq.
  - emit.
    eapply (emits_for_each _
              (fun s => Emitted.accessorDefinition nd s (Schema.nodeName nd)
                        ++ Emitted.updaterDefinition nd s)
              (resolved RK));
      [|exact HF].
    intros Child s Hs.
    destruct (resolved_lookups RK Child s Hs)
      as (node & Hn & Hty & _ & HL & HTy & HRec & Htarget).
    unfold Emitted.accessorDefinition, Emitted.updaterDefinition,
      Emitted.updaterHead, Emitted.updaterBody, Emitted.replaceChild,
      Emitted.replacement.
    rewrite Hn, Hty, Hname.
    destruct (Schema.target s) as [c|c] eqn:HT.
    + destruct (targetOf_token RK node c Htarget) as (Htok & _).
      eapply emits_eq;
        [emit; eapply printTokenAssertion_emits; eassumption|].
      unfold RecordRecTy_getAsString. text_eq.
    + destruct (targetOf_node RK node c Htarget) as (Htok & _).
      eapply emits_eq; [emit|].
      unfold RecordRecTy_getAsString. text_eq.
  - unfold Emitted.handleDefinition. text_eq.
Qed.

(** A slot declared with the token class: the class then exists, since the
    slot's declared type was read through. *)
Lemma declared_token (RK : RecordKeeper.t) (Child : RecordVal.t)
    (s : Schema.ChildSlot) :
  resolved RK Child s ->
  RecordPtr.eqb_nullable (Some (Schema.declared s))
                         (RecordKeeper.getClass RK "Token")
  = RecordPtr.eqb (Schema.declared s) (RecordPtr.Class "Token").
Proof.
  intros [Hc Hs].
  unfold Schema.slotOf in Hs.
  apply bind_Ok in Hs. destruct Hs as (d & Hd & Hs).
  apply bind_Ok in Hs. destruct Hs as (node & Hnode & Hs).
  apply bind_Ok in Hs. destruct Hs as (t & Ht & Hs).
  injection Hs as <-. simpl.
  unfold Schema.isChild in Hc.
  destruct (RecordVal.getType Child) as [p|]; [|discriminate].
  injection Hd as ->.
  unfold Schema.derives in Hc.
  apply bind_Ok in Hc. destruct Hc as (D & HD & _).
  destruct (RecordPtr.eqb d (RecordPtr.Class "Token")) eqn:He.
  - apply RecordPtr_eqb_eq in He. subst d.
    unfold RecordKeeper.deref in HD. unfold RecordKeeper.getClass.
    destruct (RecordKeeper.lookup _ "Token"); [reflexivity | discriminate].
  - unfold RecordKeeper.getClass.
    destruct (RecordKeeper.lookup _ "Token"); [exact He | reflexivity].
Qed.

Lemma printSyntaxInterface_emits (RK : RecordKeeper.t)
    (Node : RecordPtr.t) (nd : Schema.NodeDefinition) :
  Schema.nodeDefinition RK Node = Ok nd ->
  emits (printSyntaxInterface RK Node) false (Emitted.handleDeclaration nd).
Proof.
  intros H.
  destruct (getChildrenOf_slots RK Node nd H)
    as (R & P & Children & HR & HP & HC & HF & Hname & Hparent).
  unfold printSyntaxInterface.
  eapply emits_eq.
  - emit.
    + eapply (emits_for_each _ Emitted.cursorEntry (resolved RK)); [|exact HF].
      intros Child s Hs.
      destruct (resolved_lookups RK Child s Hs) as (node & Hn & _).
      unfold Emitted.cursorEntry. rewrite Hn.
      eapply emits_eq; [emit|]. text_eq.
    + eapply (emits_for_each _
                (fun s => Emitted.accessorSignature s
                          ++ Emitted.updaterSignature nd s)
                (resolved RK));
        [|exact HF].
      intros Child s Hs.
      pose proof (declared_token RK Child s Hs) as Htoken.
      destruct (resolved_lookups RK Child s Hs) as (node & Hn & _ & Hd & _).
      unfold Emitted.accessorSignature, Emitted.updaterSignature,
        Emitted.updaterArgument, Emitted.declaredHandle, Emitted.handleName.
      rewrite Hn, Hname, <- Htoken.
      eapply emits_eq; [emit|].
      unfold RecordRecTy_getAsString.
      destruct (RecordPtr.eqb_nullable _ _); text_eq.
  - unfold Emitted.handleDeclaration, Emitted.handleHead,
      Emitted.handleConstructor, Emitted.cursorEnumeration,
      Emitted.kindPredicate, Emitted.wrapperName, Emitted.handleName.
    rewrite Hname, Hparent. text_eq.
Qed.

Lemma printSyntaxDataInterface_emits (RK : RecordKeeper.t)
    (Node : RecordPtr.t) (nd : Schema.NodeDefinition) :
  Schema.nodeDefinition RK Node = Ok nd ->
  emits (printSyntaxDataInterface Node) false (Emitted.wrapperDeclaration nd).
Proof.
  intros H.
  destruct (getChildrenOf_slots RK Node nd H)
    as (R & P & Children & HR & HP & HC & HF & Hname & Hparent).
  unfold printSyntaxDataInterface.
  eapply emits_eq; [emit|].
  unfold Emitted.wrapperDeclaration, Emitted.wrapperName, Emitted.handleName.
  rewrite Hname. text_eq.
Qed.

(** ** The loops over the nodes of a category *)

Lemma emits_for_each_skip {A S : Type} (skip : A -> bool)
    (body : A -> Printer unit) (text : S -> string) (R : A -> S -> Prop) :
  (forall X s, R X s -> emits (body X) tt (text s)) ->
  forall Xs ss,
    Forall2 R (filter (fun X => negb (skip X)) Xs) ss ->
    emits (for_each Xs (fun X => if skip X then ret tt else body X)) tt
          (Emitted.flat (map text ss)).
Proof.
  intros Hbody Xs.
  induction Xs as [|X Xs IH]; intros ss HF; cbn [filter] in HF;
    cbn [for_each].
  - inversion HF; subst. apply emits_ret.
  - destruct (skip X); cbn [negb] in HF.
    + eapply emits_eq; [eapply emits_bind; [apply emits_ret | apply IH, HF]|].
      reflexivity.
    + inversion HF as [|X' s Xs' ss' HR HF']; subst. cbn [map Emitted.flat fold_right].
      eapply emits_bind; [apply Hbody, HR | apply IH, HF'].
Qed.

Lemma nodeDefinitions_Forall2 (RK : RecordKeeper.t) (Nodes : list RecordPtr.t) :
  forall nds, Schema.nodeDefinitions RK Nodes = Ok nds ->
  Forall2 (fun Node nd => Schema.nodeDefinition RK Node = Ok nd) Nodes nds.
Proof.
  induction Nodes as [|Node Nodes IH]; simpl; intros nds H.
  - injection H as <-. constructor.
  - apply bind_Ok in H. destruct H as (nd & Hnd & H).
    apply bind_Ok in H. destruct H as (nds' & Hnds & H).
    injection H as <-. constructor; [exact Hnd | apply IH, Hnds].
Qed.

Lemma category_nodes (RK : RecordKeeper.t) (C : string)
    (nds : list Schema.NodeDefinition) :
  Schema.category RK C = Ok nds ->
  exists Nodes,
    RecordKeeper.getAllDerivedDefinitions RK C = Ok Nodes /\
    Forall2 (fun Node nd => Schema.nodeDefinition RK Node = Ok nd)
            (filter (fun Node => negb (Schema.isUmbrella C Node)) Nodes) nds.
Proof.
  unfold Schema.category. intros H.
  apply bind_Ok in H. destruct H as (Nodes & HN & H).
  exists Nodes. split; [exact HN | now apply nodeDefinitions_Forall2].
Qed.

Lemma printSyntaxInterfaces_emits (RK : RecordKeeper.t) (opts : options.t)
    (nds : list Schema.NodeDefinition) :
  Schema.category RK (options.Category opts) = Ok nds ->
  emits (printSyntaxInterfaces RK opts) false
        (Emitted.flat (map Emitted.declaration nds)).
Proof.
  intros H. destruct (category_nodes RK _ nds H) as (Nodes & HN & HF).
  unfold printSyntaxInterfaces.
  eapply emits_eq.
  - emit.
    eapply (emits_for_each_skip
              (Schema.isUmbrella (options.Category opts)) _
              Emitted.declaration); [|exact HF].
    intros Node nd Hnd. cbv beta.
    pose proof (printSyntaxInterface_emits RK Node nd Hnd).
    pose proof (printSyntaxDataInterface_emits RK Node nd Hnd).
    eapply emits_eq; [emit; eassumption|].
    unfold Emitted.declaration. text_eq.
  - text_eq.
Qed.

Lemma printSyntaxImplementations_emits (RK : RecordKeeper.t)
    (opts : options.t) (nds : list Schema.NodeDefinition) :
  Schema.category RK (options.Category opts) = Ok nds ->
  emits (printSyntaxImplementations RK (registry RK) opts) false
        (Emitted.flat (map Emitted.definition nds)).
Proof.
  intros H. destruct (category_nodes RK _ nds H) as (Nodes & HN & HF).
  unfold printSyntaxImplementations.
  eapply emits_eq.
  - emit.
    eapply (emits_for_each_skip
              (Schema.isUmbrella (options.Category opts)) _
              Emitted.definition); [|exact HF].
    intros Node nd Hnd. cbv beta.
    pose proof (printSyntaxImplementation_emits RK Node nd Hnd).
    pose proof (printSyntaxDataImplementation_emits RK Node nd Hnd).
    destruct (getChildrenOf_slots RK Node nd Hnd)
      as (_ & _ & _ & _ & _ & _ & _ & Hname & _).
    eapply emits_eq; [emit; eassumption|].
    unfold Emitted.definition. rewrite Hname. text_eq.
  - text_eq.
Qed.


(** ** The dispatch *)

Lemma Case_miss {T : Type} (S : string) (Value : T) (sw : StringSwitch.t T) :
  (StringSwitch.Str sw =? S)%string = false ->
  StringSwitch.Case S Value sw = sw.
Proof.
  unfold StringSwitch.Case. intros ->. now destruct (StringSwitch.Result sw).
Qed.

Lemma getCategory_Unknown (opts : options.t) :
  getCategory opts = Category.Unknown <-> ~ In (options.Category opts) recognized.
Proof.
  unfold getCategory. generalize (options.Category opts) as C. intros C.
  split.
  - intros HU HIn. unfold recognized in HIn. simpl in HIn.
    repeat destruct HIn as [<-|HIn]; try discriminate HU. exact HIn.
  - intros HN.
    assert (miss : forall S, In S recognized -> (C =? S)%string = false).
    { intros S HS. apply String.eqb_neq. intros <-. contradiction. }
    unfold recognized in miss. simpl in miss.
    rewrite (Case_miss "Decl") by (apply miss; tauto).
    rewrite (Case_miss "Expr") by (apply miss; tauto).
    rewrite (Case_miss "Stmt") by (apply miss; tauto).
    rewrite (Case_miss "Type") by (apply miss; tauto).
    rewrite (Case_miss "Pattern") by (apply miss; tauto).
    rewrite (Case_miss "SyntaxFactory") by (apply miss; tauto).
    rewrite (Case_miss "SyntaxRewriter") by (apply miss; tauto).
    reflexivity.
Qed.

Lemma genInterface_tree (RK : RecordKeeper.t) (opts : options.t) :
  treeCategory (getCategory opts) = true ->
  genInterface RK opts = printSyntaxInterfaces RK opts.
Proof.
  unfold genInterface. destruct (getCategory opts); simpl; intros H;
    try discriminate; reflexivity.
Qed.

Lemma genImplementation_tree (RK : RecordKeeper.t) (S : SmallPtrSet.t)
    (opts : options.t) :
  treeCategory (getCategory opts) = true ->
  genImplementation RK S opts = printSyntaxImplementations RK S opts.
Proof.
  unfold genImplementation. destruct (getCategory opts); simpl; intros H;
    try discriminate; reflexivity.
Qed.

(** The definitions of a category are those of its defs that are not the
    umbrella definition, one each and in the same order. *)
Lemma category_names (RK : RecordKeeper.t) (C : string)
    (nds : list Schema.NodeDefinition) :
  Schema.category RK C = Ok nds ->
  exists Nodes,
    RecordKeeper.getAllDerivedDefinitions RK C = Ok Nodes /\
    map Schema.nodeName nds =
    filter (fun n => negb (n =? "Any" ++ C)%string)
           (map RecordPtr.getName Nodes).
Proof.
  intros H. destruct (category_nodes RK C nds H) as (Nodes & HN & HF).
  exists Nodes. split; [exact HN|].
  clear HN H. revert nds HF.
  induction Nodes as [|Node Nodes IH]; cbn [map filter]; intros nds HF.
  - now inversion HF.
  - unfold Schema.isUmbrella in HF at 1.
    destruct (RecordPtr.getName Node =? "Any" ++ C)%string; cbn [negb] in *.
    + now apply IH.
    + inversion HF as [|N nd Ns nds' Hnd HF']; subst. cbn [map].
      destruct (getChildrenOf_slots RK Node nd Hnd)
        as (_ & _ & _ & _ & _ & _ & _ & Hname & _).
      rewrite Hname. f_equal. now apply IH.
Qed.

Lemma readDecimal_decimal (n : nat) : readDecimal (decimal n) = Some n.
Proof.
  unfold readDecimal, decimal. rewrite NilEmpty.usu.
  now rewrite Unsigned.of_to.
Qed.

(** ** Whole runs *)

Lemma emits_run {A : Type} (m : Printer A) (a : A) (w : string) :
  emits m a w -> m EmptyString = Ok (a, w).
Proof. intros H. exact (H EmptyString). Qed.

Lemma recognized_tree (C : string) (L : TargetLanguage.t) (A : ActionType.t) :
  In C ["Decl"; "Expr"; "Stmt"; "Type"; "Pattern"] ->
  treeCategory (getCategory (options.mk A L C)) = true.
Proof.
  simpl. intros H. repeat destruct H as [<-|H]; try reflexivity. destruct H.
Qed.

(** [SyntaxTableGenMain] with its category set named. *)
Lemma SyntaxTableGenMain_dispatch (opts : options.t) (os : raw_ostream)
    (Records : RecordKeeper.t) :
  SyntaxTableGenMain opts os Records =
  match options.Action opts with
  | ActionType.None =>
      (Ok (true, os), [errs ("action required" ++ nl); PrintHelpMessage])
  | ActionType.GenInterface => (genInterface Records opts os, [])
  | ActionType.GenImplementation =>
      (genImplementation Records (registry Records) opts os, [])
  end.
Proof. reflexivity. Qed.

Lemma tree_known (opts : options.t) :
  treeCategory (getCategory opts) = true ->
  Category.eqb (getCategory opts) Category.Unknown = false.
Proof. destruct (getCategory opts); simpl; congruence. Qed.

Lemma main_known (opts : options.t) (Input : option RecordKeeper.t) :
  Category.eqb (getCategory opts) Category.Unknown = false ->
  main opts Input = TableGenMain (SyntaxTableGenMain opts) Input.
Proof. unfold main. now intros ->. Qed.

(** ** Runs on the example schema *)

Example getCategory_Stmt :
  getCategory (Example.interface "Stmt") = Category.Stmt.
Proof. reflexivity. Qed.

Example getCategory_SyntaxCollection :
  getCategory (Example.interface "SyntaxCollection") = Category.Unknown.
Proof. reflexivity. Qed.

Example getChildrenOf_IfStmt :
  match getChildrenOf Example.Records Example.IfStmt with
  | Ok Children =>
      map RecordVal.getName Children = ["IfKeyword"; "Condition"; "Body"]
  | Fail _ => False
  end.
Proof. reflexivity. Qed.

Example getMissingSyntaxKind_Condition :
  getMissingSyntaxKind Example.Records (registry Example.Records)
    (Example.field "Condition" Example.Layout_
       (DefInit (RecordPtr.Def "anonymous_1")))
  = Ok "MissingExpr".
Proof. reflexivity. Qed.

(** A token without spelling: the constructor's assertion would print an
    empty spelling, but makeBlank reads the field with [getValueAsString]
    and the generator stops with a fatal error. *)
Example makeBlank_missing_spelling :
  printSyntaxDataImplementation Example.Defective (registry Example.Defective)
    (RecordPtr.Def "WhileStmt") EmptyString
  = Fail FatalError.
Proof. reflexivity. Qed.

(** A child node in no registered category: [getSyntaxCategory] finds
    nothing and [getValue] on the empty optional stops the generator. *)
Example makeBlank_unresolved_category :
  printSyntaxDataImplementation Example.Defective (registry Example.Defective)
    (RecordPtr.Def "LooseStmt") EmptyString
  = Fail NoOptionalValue.
Proof. reflexivity. Qed.

(** The schema view refuses both nodes. *)
Example nodeDefinition_defective :
  Schema.nodeDefinition Example.Defective (RecordPtr.Def "WhileStmt")
    = Fail FatalError /\
  Schema.nodeDefinition Example.Defective (RecordPtr.Def "LooseStmt")
    = Fail NoOptionalValue.
Proof. split; reflexivity. Qed.

(** * The claims *)

Import Schema.

(** C1. For every node definition, the makeBlank the generator prints
    returns [make] of a raw node of the node's kind whose children are the
    placeholders of the slots, in slot order: a missing token carrying the
    slot's kind and spelling for a token slot, and for a node slot the
    missing node of the placeholder kind the fixed table gives for the
    slot's category. *)
Theorem makeBlank_placeholders_in_slot_order (RK : RecordKeeper.t)
    (Node : RecordPtr.t) (nd : NodeDefinition) :
  nodeDefinition RK Node = Ok nd ->
  emits (printSyntaxDataImplementation RK (registry RK) Node) false
        (Emitted.constructorDefinition nd ++
         Emitted.makeDefinition nd ++
         "RC<" ++ nodeName nd ++ "Data>" ++ nl ++
         nodeName nd ++ "Data::makeBlank() {" ++ nl ++
         "  return make(RawSyntax::make(SyntaxKind::" ++ nodeName nd ++ ","
         ++ nl ++
         "  {" ++ nl ++
         Emitted.flat (map Emitted.placeholder (slots nd)) ++
         "  }," ++ nl ++
         "  SourcePresence::Present));" ++ nl ++
         "}" ++ nl ++ nl) /\
  forall s, In s (slots nd) ->
    match target s with
    | TokenTarget c =>
        Emitted.placeholder s =
        "    TokenSyntax::missingToken(tok::" ++ kind c ++ ", " ++ dq ++
        spelling c ++ dq ++ ")," ++ nl
    | NodeTarget c =>
        exists placeholderKind,
          In (c, placeholderKind)
             [ (Decl, "MissingDecl"); (Expr, "MissingExpr");
               (Stmt, "MissingStmt"); (Type_, "MissingType");
               (Pattern, "MissingPattern");
               (SyntaxCollection, "MissingSyntaxCollection") ] /\
          Emitted.placeholder s =
          "    RawSyntax::missing(SyntaxKind::" ++ placeholderKind ++ "),"
          ++ nl
    end.
Proof.
  intros H. split.
  - eapply emits_eq; [apply (printSyntaxDataImplementation_emits RK Node nd H)|].
    unfold Emitted.wrapperDefinition, Emitted.makeBlankDefinition,
      Emitted.dataName.
    text_eq.
  - intros s _. unfold Emitted.placeholder.
    destruct (target s) as [c|c]; [reflexivity|].
    exists (missingKindFor c). split; [|reflexivity].
    destruct c; simpl; tauto.
Qed.

Lemma makeBlank_placeholders_in_slot_order_witness :
  printSyntaxDataImplementation Example.Records (registry Example.Records)
    Example.IfStmt EmptyString =
  Ok (false,
      Emitted.constructorDefinition IfStmtDefinition ++
      Emitted.makeDefinition IfStmtDefinition ++
      "RC<IfStmtData>" ++ nl ++
      "IfStmtData::makeBlank() {" ++ nl ++
      "  return make(RawSyntax::make(SyntaxKind::IfStmt," ++ nl ++
      "  {" ++ nl ++
      "    TokenSyntax::missingToken(tok::kw_if, " ++ dq ++ "if" ++ dq ++ "),"
      ++ nl ++
      "    RawSyntax::missing(SyntaxKind::MissingExpr)," ++ nl ++
      "    RawSyntax::missing(SyntaxKind::MissingStmt)," ++ nl ++
      "  }," ++ nl ++
      "  SourcePresence::Present));" ++ nl ++
      "}" ++ nl ++ nl).
Proof.
  exact (proj1 (makeBlank_placeholders_in_slot_order
                  Example.Records Example.IfStmt IfStmtDefinition eq_refl)
               EmptyString).
Defined.

(** C2. For every node definition, the wrapper constructor the generator
    prints asserts, in this order: that the raw node's kind is the node's
    kind; that its layout size is the number of slots; and for each slot in
    slot order, on the raw child at the slot's cursor, the token kind alone
    for an identifier-like token slot, the token kind and the exact
    spelling for any other token slot, and the kind of the slot's node type
    for a node slot. *)
Theorem constructor_asserts_declared_shape (RK : RecordKeeper.t)
    (Node : RecordPtr.t) (nd : NodeDefinition) :
  nodeDefinition RK Node = Ok nd ->
  emits (printSyntaxDataImplementation RK (registry RK) Node) false
        (Emitted.constructorHead nd ++
         "  assert(Raw->getKind() == SyntaxKind::" ++ nodeName nd ++ ");"
         ++ nl ++
         "  assert(Raw->Layout.size() == " ++
         decimal (List.length (slots nd)) ++ ");" ++ nl ++
         Emitted.flat (map Emitted.slotAssertion (slots nd)) ++
         "}" ++ nl ++ nl ++
         Emitted.makeDefinition nd ++
         Emitted.makeBlankDefinition
           nd (Emitted.flat (map Emitted.placeholder (slots nd)))) /\
  forall s, In s (slots nd) ->
    let child := "Raw->getChild(Cursor::" ++ name s ++ ")" in
    Emitted.slotAssertion s =
    match target s with
    | TokenTarget c =>
        if identifierLike c
        then "assert(" ++ child ++ "->getTokenKind() == " ++ kind c ++ ");"
             ++ nl
        else "  syntax_assert_token_is(" ++ child ++ ", " ++ kind c ++ ", "
             ++ dq ++ spelling c ++ dq ++ ");" ++ nl
    | NodeTarget _ =>
        "  assert(" ++ child ++ "->getKind() == SyntaxKind::" ++ typeName s
        ++ ");" ++ nl
    end.
Proof.
  intros H. split.
  - eapply emits_eq; [apply (printSyntaxDataImplementation_emits RK Node nd H)|].
    unfold Emitted.wrapperDefinition, Emitted.constructorDefinition,
      Emitted.runtimeKindAssertion, Emitted.arityAssertion.
    text_eq.
  - intros s _. unfold Emitted.slotAssertion, Emitted.rawChild.
    destruct (target s) as [c|c]; reflexivity.
Qed.

Lemma constructor_asserts_declared_shape_witness :
  printSyntaxDataImplementation Example.Records (registry Example.Records)
    Example.GotoStmt EmptyString =
  Ok (false,
      "GotoStmtData::GotoStmtData(RC<RawSyntax> Raw, const SyntaxData *Data, const CursorIndex IndexInParent)"
      ++ nl ++
      "  : StmtData(Raw, Data, IndexInParent) {" ++ nl ++
      "  assert(Raw->getKind() == SyntaxKind::GotoStmt);" ++ nl ++
      "  assert(Raw->Layout.size() == 2);" ++ nl ++
      "  syntax_assert_token_is(Raw->getChild(Cursor::GotoKeyword), kw_goto, "
      ++ dq ++ "goto" ++ dq ++ ");" ++ nl ++
      "assert(Raw->getChild(Cursor::Label)->getTokenKind() == identifier);"
      ++ nl ++
      "}" ++ nl ++ nl ++
      Emitted.makeDefinition GotoStmtDefinition ++
      Emitted.makeBlankDefinition
        GotoStmtDefinition
        (Emitted.flat (map Emitted.placeholder (slots GotoStmtDefinition)))).
Proof.
  exact (proj1 (constructor_asserts_declared_shape
                  Example.Records Example.GotoStmt GotoStmtDefinition eq_refl)
               EmptyString).
Defined.

(** C7. For every node definition, the arity literal in the constructor's
    layout-size assertion reads as the number of children [getChildrenOf]
    resolves (the layout-typed fields, in declaration order), and the
    cursor enumeration of the handle declaration has one entry per such
    child, in that order. *)
Theorem arity_literal_counts_slots_and_cursors (RK : RecordKeeper.t)
    (Node : RecordPtr.t) (nd : NodeDefinition) :
  nodeDefinition RK Node = Ok nd ->
  exists Children arity entries,
    getChildrenOf RK Node = Ok Children /\
    emits (printSyntaxDataImplementation RK (registry RK) Node) false
          (Emitted.constructorHead nd ++
           Emitted.runtimeKindAssertion nd ++
           "  assert(Raw->Layout.size() == " ++ arity ++ ");" ++ nl ++
           Emitted.flat (map Emitted.slotAssertion (slots nd)) ++
           "}" ++ nl ++ nl ++
           Emitted.makeDefinition nd ++
           Emitted.makeBlankDefinition
             nd (Emitted.flat (map Emitted.placeholder (slots nd)))) /\
    emits (printSyntaxInterface RK Node) false
          (Emitted.handleHead nd ++
           "  enum class Cursor : CursorIndex {" ++ nl ++
           Emitted.flat entries ++
           "  };" ++ nl ++
           Emitted.handleConstructor nd ++
           Emitted.flat
             (map (fun s => Emitted.accessorSignature s ++
                            Emitted.updaterSignature nd s) (slots nd)) ++
           Emitted.kindPredicate nd ++
           "};" ++ nl ++ nl) /\
    entries = map (fun Child => "    " ++ RecordVal.getName Child ++ "," ++ nl)
                  Children /\
    readDecimal arity = Some (List.length Children) /\
    List.length Children = List.length (slots nd) /\
    List.length entries = List.length Children.
Proof.
  intros H.
  destruct (getChildrenOf_slots RK Node nd H)
    as (R & P & Children & HR & HP & HC & HF & Hname & Hparent).
  exists Children, (decimal (List.length Children)),
    (map (fun Child => "    " ++ RecordVal.getName Child ++ "," ++ nl)
         Children).
  split; [exact HC|]. split; [|split; [|split; [reflexivity|]]].
  - eapply emits_eq; [apply (printSyntaxDataImplementation_emits RK Node nd H)|].
    unfold Emitted.wrapperDefinition, Emitted.constructorDefinition,
      Emitted.arityAssertion.
    rewrite (Forall2_length HF). text_eq.
  - eapply emits_eq; [apply (printSyntaxInterface_emits RK Node nd H)|].
    unfold Emitted.handleDeclaration, Emitted.cursorEnumeration.
    replace (map Emitted.cursorEntry (slots nd))
      with (map (fun Child => "    " ++ RecordVal.getName Child ++ "," ++ nl)
                Children).
    + text_eq.
    + clear - HF.
      induction HF as [|Child s Children ss Hs _ IH]; cbn [map];
        [reflexivity|].
      destruct (resolved_lookups RK Child s Hs) as (node & Hn & _).
      unfold Emitted.cursorEntry at 1. rewrite Hn. f_equal. exact IH.
  - split; [apply readDecimal_decimal|].
    split; [exact (Forall2_length HF) | apply length_map].
Qed.

Lemma arity_literal_counts_slots_and_cursors_witness :
  exists Children arity entries,
    getChildrenOf Example.Records Example.IfStmt = Ok Children /\
    emits (printSyntaxDataImplementation Example.Records
             (registry Example.Records) Example.IfStmt) false
          (Emitted.constructorHead IfStmtDefinition ++
           Emitted.runtimeKindAssertion IfStmtDefinition ++
           "  assert(Raw->Layout.size() == " ++ arity ++ ");" ++ nl ++
           Emitted.flat (map Emitted.slotAssertion (slots IfStmtDefinition)) ++
           "}" ++ nl ++ nl ++
           Emitted.makeDefinition IfStmtDefinition ++
           Emitted.makeBlankDefinition
             IfStmtDefinition
             (Emitted.flat (map Emitted.placeholder (slots IfStmtDefinition)))) /\
    emits (printSyntaxInterface Example.Records Example.IfStmt) false
          (Emitted.handleHead IfStmtDefinition ++
           "  enum class Cursor : CursorIndex {" ++ nl ++
           Emitted.flat entries ++
           "  };" ++ nl ++
           Emitted.handleConstructor IfStmtDefinition ++
           Emitted.flat
             (map (fun s => Emitted.accessorSignature s ++
                            Emitted.updaterSignature IfStmtDefinition s)
                  (slots IfStmtDefinition)) ++
           Emitted.kindPredicate IfStmtDefinition ++
           "};" ++ nl ++ nl) /\
    entries = map (fun Child => "    " ++ RecordVal.getName Child ++ "," ++ nl)
                  Children /\
    readDecimal arity = Some (List.length Children) /\
    List.length Children = List.length (slots IfStmtDefinition) /\
    List.length entries = List.length Children.
Proof.
  exact (arity_literal_counts_slots_and_cursors
           Example.Records Example.IfStmt IfStmtDefinition eq_refl).
Defined.

(** C4. For every node definition and every slot, the updater the
    generator prints right after the slot's accessor is: for a token slot,
    the assertion of the slot's constraint on the replacement, then the
    copy-on-write replaceChild of the child at the slot's cursor by the
    replacement itself; for a node slot, the replaceChild of that child by
    the replacement's raw subtree. Either way replaceChild is instantiated
    at the node's own type, which is also the declared result. *)
Theorem updater_revalidates_then_replaces (RK : RecordKeeper.t)
    (Node : RecordPtr.t) (nd : NodeDefinition) :
  nodeDefinition RK Node = Ok nd ->
  emits (printSyntaxImplementation RK Node) false
        (Emitted.flat
           (map (fun s =>
                   Emitted.accessorDefinition nd s (nodeName nd) ++
                   nodeName nd ++ nl ++
                   nodeName nd ++ "::with" ++ name s ++ "(" ++ typeName s ++
                   " New" ++ name s ++ ") const {" ++ nl ++
                   Emitted.updaterBody nd s ++
                   "}" ++ nl ++ nl)
                (slots nd))) /\
  forall s, In s (slots nd) ->
    Emitted.updaterBody nd s =
    match target s with
    | TokenTarget c =>
        Emitted.tokenAssertion ("New" ++ name s) c ++
        "  return Data->replaceChild<" ++ nodeName nd ++ ">(New" ++ name s ++
        ", Cursor::" ++ name s ++ ");" ++ nl
    | NodeTarget _ =>
        "  return Data->replaceChild<" ++ nodeName nd ++ ">(New" ++ name s ++
        "->getRaw(), Cursor::" ++ name s ++ ");" ++ nl
    end.
Proof.
  intros H. split.
  - eapply emits_eq; [apply (printSyntaxImplementation_emits RK Node nd H)|].
    unfold Emitted.handleDefinition. f_equal. apply map_ext. intros s.
    unfold Emitted.updaterDefinition, Emitted.updaterHead,
      Emitted.replacement.
    text_eq.
  - intros s _.
    unfold Emitted.updaterBody, Emitted.replaceChild, Emitted.replacement.
    destruct (target s) as [c|c]; text_eq.
Qed.

Lemma updater_revalidates_then_replaces_witness :
  printSyntaxImplementation Example.Records Example.GotoStmt EmptyString =
  Ok (false,
      Emitted.accessorDefinition
        GotoStmtDefinition
        (mkChildSlot "GotoKeyword" (RecordPtr.Class "Layout") "kw_goto"
           (TokenTarget (mkTokenConstraint "kw_goto" false "goto")))
        "GotoStmt" ++
      "GotoStmt" ++ nl ++
      "GotoStmt::withGotoKeyword(kw_goto NewGotoKeyword) const {" ++ nl ++
      "  syntax_assert_token_is(NewGotoKeyword, kw_goto, " ++ dq ++ "goto"
      ++ dq ++ ");" ++ nl ++
      "  return Data->replaceChild<GotoStmt>(NewGotoKeyword, Cursor::GotoKeyword);"
      ++ nl ++
      "}" ++ nl ++ nl ++
      Emitted.accessorDefinition
        GotoStmtDefinition
        (mkChildSlot "Label" (RecordPtr.Class "Layout") "identifier"
           (TokenTarget (mkTokenConstraint "identifier" true EmptyString)))
        "GotoStmt" ++
      "GotoStmt" ++ nl ++
      "GotoStmt::withLabel(identifier NewLabel) const {" ++ nl ++
      "assert(NewLabel->getTokenKind() == identifier);" ++ nl ++
      "  return Data->replaceChild<GotoStmt>(NewLabel, Cursor::Label);" ++ nl
      ++
      "}" ++ nl ++ nl).
Proof.
  exact (proj1 (updater_revalidates_then_replaces
                  Example.Records Example.GotoStmt GotoStmtDefinition eq_refl)
               EmptyString).
Defined.

(** C6. For every token slot, the assertion [printTokenAssertion] prints
    always checks the token kind, and checks the exact spelling if and only
    if the token's type is not identifier-like, as [isIdentifier] decides
    on the slot's node type: the kind-only form for an identifier-like
    slot, the kind-and-spelling form for any other. *)
Theorem token_assertion_checks_spelling_unless_identifier
    (RK : RecordKeeper.t) (variable : string) (Child : RecordVal.t)
    (s : ChildSlot) (c : TokenConstraint) :
  isChild RK Child = Ok true ->
  slotOf RK Child = Ok s ->
  target s = TokenTarget c ->
  (exists Ty,
     getLayoutNodeType RK Child = Ok Ty /\
     isIdentifier RK (RecordRecTy Ty) = Ok (identifierLike c)) /\
  emits (printTokenAssertion RK variable Child) tt
        (if identifierLike c
         then "assert(" ++ variable ++ "->getTokenKind() == " ++ kind c ++
              ");" ++ nl
         else "  syntax_assert_token_is(" ++ variable ++ ", " ++ kind c ++
              ", " ++ dq ++ spelling c ++ dq ++ ");" ++ nl).
Proof.
  intros Hc Hs HT.
  assert (HR : resolved RK Child s) by now split.
  split.
  - destruct (resolved_lookups RK Child s HR)
      as (node & _ & _ & _ & _ & HTy & _ & Htarget).
    rewrite HT in Htarget.
    destruct (targetOf_token RK node c Htarget) as (_ & Hid & _).
    now exists node.
  - exact (printTokenAssertion_emits RK variable Child s c HR HT).
Qed.

Lemma token_assertion_checks_spelling_unless_identifier_witness :
  (exists Ty,
     getLayoutNodeType Example.Records Example.Label = Ok Ty /\
     isIdentifier Example.Records (RecordRecTy Ty) = Ok true) /\
  printTokenAssertion Example.Records "NewLabel" Example.Label EmptyString =
  Ok (tt, "assert(NewLabel->getTokenKind() == identifier);" ++ nl).
Proof.
  destruct (token_assertion_checks_spelling_unless_identifier
              Example.Records "NewLabel" Example.Label
              (mkChildSlot "Label" (RecordPtr.Class "Layout") "identifier"
                 (TokenTarget (mkTokenConstraint "identifier" true EmptyString)))
              (mkTokenConstraint "identifier" true EmptyString)
              eq_refl eq_refl eq_refl)
    as [Hid Hemits].
  split; [exact Hid | exact (Hemits EmptyString)].
Defined.

(** C3. The accessor printed for the slot [Condition] of [IfStmt]: it is
    declared to return an optional [AnyExpr], the slot's child type, reads
    the raw child at the slot's cursor, returns [llvm::None] when that child
    is missing, and realizes the cached [AnyExpr] child at the cursor; but
    the value it returns in its last statement is built from the class
    [IfStmt], the node's own type, not from the child type. *)
Theorem accessor_returns_value_of_node_type :
  printSyntaxImplementation Example.Records Example.IfStmt EmptyString =
  Ok (false,
      Emitted.accessorDefinition
        IfStmtDefinition
        (mkChildSlot "IfKeyword" (RecordPtr.Class "Layout") "kw_if"
           (TokenTarget (mkTokenConstraint "kw_if" false "if")))
        "IfStmt" ++
      Emitted.updaterDefinition
        IfStmtDefinition
        (mkChildSlot "IfKeyword" (RecordPtr.Class "Layout") "kw_if"
           (TokenTarget (mkTokenConstraint "kw_if" false "if"))) ++
      ("llvm::Optional<AnyExpr>" ++ nl ++
       "IfStmt::getCondition() const {" ++ nl ++
       "  auto RawChild = getRaw()->getChild(Cursor::Condition;" ++ nl ++
       "  if (RawChild->isMissing()) {" ++ nl ++
       "    return llvm::None;" ++ nl ++
       "  }" ++ nl ++
       "  auto *MyData = getUnsafeData<IfStmt>();" ++ nl ++
       "  auto &ChildPtr = *reinterpret_cast<std::atomic<uintptr_t>*>(" ++ nl ++
       "    &MyData->CachedCondition);" ++ nl ++
       "  SyntaxData::realizeSyntaxNode<AnyExpr>(ChildPtr, RawChild, MyData, cursorIndex(Cursor::Condition));"
       ++ nl ++
       "  return IfStmt{ Root, MyData->CachedCondition.get() };" ++ nl ++
       "}" ++ nl ++ nl) ++
      Emitted.updaterDefinition
        IfStmtDefinition
        (mkChildSlot "Condition" (RecordPtr.Class "Layout") "AnyExpr"
           (NodeTarget Expr)) ++
      Emitted.accessorDefinition
        IfStmtDefinition
        (mkChildSlot "Body" (RecordPtr.Class "Layout") "AnyStmt"
           (NodeTarget Stmt))
        "IfStmt" ++
      Emitted.updaterDefinition
        IfStmtDefinition
        (mkChildSlot "Body" (RecordPtr.Class "Layout") "AnyStmt"
           (NodeTarget Stmt))).
Proof. vm_compute. reflexivity. Qed.

(** C5. The declaration printed for [IfStmt], and the places where it
    parts from the definition of the same node. The cursor enumeration
    lists the slots in slot order and every updater returns the node's
    handle; but each accessor and updater is typed with the handle of the
    field's TableGen type, [LayoutSyntax], where the definition types the
    slot [Condition] with its child type [AnyExpr], and the predicate
    compares the runtime kind with [SyntaxKind::IfStmtSyntax], where the
    wrapper's predicate in the same document compares it with
    [SyntaxKind::IfStmt], the node's kind. *)
Theorem declaration_parts_from_definition :
  printSyntaxInterface Example.Records Example.IfStmt EmptyString =
  Ok (false,
      "class IfStmtSyntax final : public Syntax {" ++ nl ++
      "  friend struct SyntaxFactory;" ++ nl ++
      "  friend class IfStmtSyntaxData;" ++ nl ++
      "  friend class SyntaxData;" ++ nl ++
      nl ++
      "  using DataType = IfStmtSyntaxData;" ++ nl ++
      nl ++
      "  enum class Cursor : CursorIndex {" ++ nl ++
      "    IfKeyword," ++ nl ++
      "    Condition," ++ nl ++
      "    Body," ++ nl ++
      "  };" ++ nl ++
      "  IfStmtSyntax(RC<SyntaxData> Root, const IfStmtSyntaxData*Data)" ++ nl
      ++
      "    : StmtSyntax(Root, Data) {}" ++ nl ++
      "public:" ++ nl ++
      "  llvm::Optional<LayoutSyntax> getIfKeyword() const;" ++ nl ++
      "  IfStmtSyntax withIfKeyword(LayoutSyntax NewIfKeyword) const;" ++ nl ++
      nl ++
      "  llvm::Optional<LayoutSyntax> getCondition() const;" ++ nl ++
      "  IfStmtSyntax withCondition(LayoutSyntax NewCondition) const;" ++ nl ++
      nl ++
      "  llvm::Optional<LayoutSyntax> getBody() const;" ++ nl ++
      "  IfStmtSyntax withBody(LayoutSyntax NewBody) const;" ++ nl ++
      nl ++
      "  static bool classof(const Syntax *S) {" ++ nl ++
      "    return S->getKind() == SyntaxKind::IfStmtSyntax;" ++ nl ++
      "  }" ++ nl ++
      "};" ++ nl ++ nl) /\
  (exists before after,
     printSyntaxDataInterface Example.IfStmt EmptyString =
     Ok (false,
         before ++
         "  static bool classof(const SyntaxData *SD) {" ++ nl ++
         "    return S->getKind() == SyntaxKind::IfStmt;" ++ nl ++
         after)) /\
  (exists before after,
     printSyntaxImplementation Example.Records Example.IfStmt EmptyString =
     Ok (false,
         before ++
         "llvm::Optional<AnyExpr>" ++ nl ++
         "IfStmt::getCondition() const {" ++ nl ++
         after)) /\
  (exists before after,
     printSyntaxImplementation Example.Records Example.IfStmt EmptyString =
     Ok (false,
         before ++
         "IfStmt" ++ nl ++
         "IfStmt::withCondition(AnyExpr NewCondition) const {" ++ nl ++
         after)).
Proof.
  split; [vm_compute; reflexivity|].
  split; [|split].
  - pose (out := Emitted.wrapperDeclaration IfStmtDefinition).
    pose (needle := "  static bool classof(const SyntaxData *SD) {" ++ nl).
    pose (i := match index 0 needle out with Some i => i | None => 0 end).
    exists (substring 0 i out),
      (substring (i + String.length needle + 47) (String.length out) out).
    vm_compute. reflexivity.
  - pose (out := Emitted.handleDefinition IfStmtDefinition).
    pose (needle := "llvm::Optional<AnyExpr>" ++ nl ++
                    "IfStmt::getCondition() const {" ++ nl).
    pose (i := match index 0 needle out with Some i => i | None => 0 end).
    exists (substring 0 i out),
      (substring (i + String.length needle) (String.length out) out).
    vm_compute. reflexivity.
  - pose (out := Emitted.handleDefinition IfStmtDefinition).
    pose (needle := "IfStmt" ++ nl ++
                    "IfStmt::withCondition(AnyExpr NewCondition) const {"
                    ++ nl).
    pose (i := match index 0 needle out with Some i => i | None => 0 end).
    exists (substring 0 i out),
      (substring (i + String.length needle) (String.length out) out).
    vm_compute. reflexivity.
Qed.

(** C10. For a tree category and one schema, the interface run and the
    implementation run both succeed and print one block per node
    definition of the same list: the defs derived from the category class
    except the one named Any followed by the category, in the same order.
    The block of a node is its declaration in the one document and its
    definition, under marks naming the node, in the other. *)
Theorem interface_and_implementation_enumerate_same_nodes
    (RK : RecordKeeper.t) (C : string) (L : TargetLanguage.t)
    (nds : list NodeDefinition) :
  In C ["Decl"; "Expr"; "Stmt"; "Type"; "Pattern"] ->
  category RK C = Ok nds ->
  (exists Nodes,
     RecordKeeper.getAllDerivedDefinitions RK C = Ok Nodes /\
     map nodeName nds =
     filter (fun n => negb (n =? "Any" ++ C)%string)
            (map RecordPtr.getName Nodes)) /\
  main (options.mk ActionType.GenInterface L C) (Some RK) =
    mkOutcome (Exited 0) []
      (Some (Emitted.flat
               (map (fun nd => Emitted.handleDeclaration nd ++
                               Emitted.wrapperDeclaration nd)
                    nds))) /\
  main (options.mk ActionType.GenImplementation L C) (Some RK) =
    mkOutcome (Exited 0) []
      (Some (Emitted.flat
               (map (fun nd =>
                       "#pragma mark - " ++ nodeName nd ++ " API" ++ nl ++ nl
                       ++ Emitted.handleDefinition nd ++
                       "#pragma mark - " ++ nodeName nd ++ " Data" ++ nl ++ nl
                       ++ Emitted.wrapperDefinition nd)
                    nds))).
Proof.
  intros HC H. split; [exact (category_names RK C nds H)|].
  pose proof (recognized_tree C L ActionType.GenInterface HC) as HI.
  pose proof (recognized_tree C L ActionType.GenImplementation HC) as HD.
  split.
  - rewrite (main_known _ _ (tree_known _ HI)).
    unfold TableGenMain. rewrite SyntaxTableGenMain_dispatch.
    cbn [options.Action]. rewrite (genInterface_tree RK _ HI).
    now rewrite (emits_run _ _ _
                   (printSyntaxInterfaces_emits
                      RK (options.mk ActionType.GenInterface L C) nds H)).
  - rewrite (main_known _ _ (tree_known _ HD)).
    unfold TableGenMain. rewrite SyntaxTableGenMain_dispatch.
    cbn [options.Action]. rewrite (genImplementation_tree RK _ _ HD).
    now rewrite (emits_run _ _ _
                   (printSyntaxImplementations_emits
                      RK (options.mk ActionType.GenImplementation L C)
                      nds H)).
Qed.

Lemma interface_and_implementation_enumerate_same_nodes_witness :
  (exists Nodes,
     RecordKeeper.getAllDerivedDefinitions Example.Records "Stmt" = Ok Nodes /\
     ["GotoStmt"; "IfStmt"] =
     filter (fun n => negb (n =? "AnyStmt")%string)
            (map RecordPtr.getName Nodes)) /\
  main (Example.interface "Stmt") (Some Example.Records) =
    mkOutcome (Exited 0) []
      (Some (Emitted.declaration GotoStmtDefinition ++
             Emitted.declaration IfStmtDefinition)) /\
  main (Example.implementation "Stmt") (Some Example.Records) =
    mkOutcome (Exited 0) []
      (Some (Emitted.definition GotoStmtDefinition ++
             Emitted.definition IfStmtDefinition)).
Proof.
  destruct (interface_and_implementation_enumerate_same_nodes
              Example.Records "Stmt" TargetLanguage.CPlusPlus
              [GotoStmtDefinition; IfStmtDefinition]
              (or_intror (or_intror (or_introl eq_refl))) eq_refl)
    as (Hnodes & Hdecl & Hdef).
  split; [exact Hnodes|]. split.
  - etransitivity; [exact Hdecl|]. vm_compute. reflexivity.
  - etransitivity; [exact Hdef|]. vm_compute. reflexivity.
Defined.




(** C9. For the categories SyntaxFactory and SyntaxRewriter, the interface
    action and the implementation action both return false, the success
    value, and leave the stream as it was; either run exits with status 0,
    shows nothing on the console, and keeps an output document with no
    content. *)
Theorem reserved_categories_accepted_and_empty (C : string)
    (L : TargetLanguage.t) (Records : RecordKeeper.t) :
  C = "SyntaxFactory" \/ C = "SyntaxRewriter" ->
  (forall A os, genInterface Records (options.mk A L C) os = Ok (false, os)) /\
  (forall A S os,
     genImplementation Records S (options.mk A L C) os = Ok (false, os)) /\
  main (options.mk ActionType.GenInterface L C) (Some Records) =
    mkOutcome (Exited 0) [] (Some EmptyString) /\
  main (options.mk ActionType.GenImplementation L C) (Some Records) =
    mkOutcome (Exited 0) [] (Some EmptyString).
Proof.
  intros [-> | ->]; repeat split; reflexivity.
Qed.

Lemma reserved_categories_accepted_and_empty_witness :
  genInterface Example.Records (Example.interface "SyntaxRewriter")
    "// generated" = Ok (false, "// generated") /\
  genImplementation Example.Records (registry Example.Records)
    (Example.implementation "SyntaxRewriter") "// generated"
    = Ok (false, "// generated") /\
  main (Example.interface "SyntaxRewriter") (Some Example.Records) =
    mkOutcome (Exited 0) [] (Some EmptyString) /\
  main (Example.implementation "SyntaxRewriter") (Some Example.Records) =
    mkOutcome (Exited 0) [] (Some EmptyString).
Proof.
  destruct (reserved_categories_accepted_and_empty
              "SyntaxRewriter" TargetLanguage.CPlusPlus Example.Records
              (or_intror eq_refl))
    as (HI & HD & HmI & HmD).
  split; [exact (HI ActionType.GenInterface "// generated")|].
  split; [exact (HD ActionType.GenImplementation _ "// generated")|].
  split; [exact HmI | exact HmD].
Defined.

(** * Further properties of the program *)

(** ** The helpers *)

(** X1. [getCategory] is a table lookup on the category option: it returns
    a category other than [Unknown] exactly for the seven names of the
    table, each to its own category, and [Unknown] for every other
    string. *)
Theorem getCategory_table (opts : options.t) (c : Category.t) :
  getCategory opts = c <->
  In (options.Category opts, c)
     [ ("Decl", Category.Decl); ("Expr", Category.Expr);
       ("Stmt", Category.Stmt); ("Type", Category.Type_);
       ("Pattern", Category.Pattern);
       ("SyntaxFactory", Category.SyntaxFactory);
       ("SyntaxRewriter", Category.SyntaxRewriter) ] \/
  (c = Category.Unknown /\
   forall C, In C ["Decl"; "Expr"; "Stmt"; "Type"; "Pattern";
                   "SyntaxFactory"; "SyntaxRewriter"] ->
             options.Category opts <> C).
Proof.
  split.
  - intros <-.
    destruct (in_dec string_dec (options.Category opts) recognized) as [HI|HN].
    + left. unfold getCategory. unfold recognized in HI. simpl in HI.
      repeat destruct HI as [<-|HI]; simpl; tauto.
    + right. split; [now apply getCategory_Unknown|].
      intros C HC E. apply HN. now rewrite E.
  - intros [HI | [-> HN]].
    + unfold getCategory. simpl in HI.
      repeat destruct HI as [HI|HI]; try (injection HI as <- <-; reflexivity).
      destruct HI.
    + apply getCategory_Unknown. intros HI. exact (HN _ HI eq_refl).
Qed.

(** X2. [is(Ty, TypeName)] holds of a record type exactly when the record
    is named [TypeName], whether or not it has anything to do with that
    class, or when the class [TypeName] exists and is among the record's
    superclasses; it is false of every other type, and of any record when
    the class does not exist and the names differ. *)
Theorem is_characterised (RK : RecordKeeper.t) (Ty : RecTy)
    (TypeName : string) :
  is_ RK Ty TypeName = Ok true <->
  exists p,
    Ty = RecordRecTy p /\
    (RecordPtr.getName p = TypeName \/
     exists R,
       RecordKeeper.deref RK p = Ok R /\
       RecordKeeper.getClass RK TypeName = Some (RecordPtr.Class TypeName) /\
       In (RecordPtr.Class TypeName) (Rec.getSuperClasses R)).
Proof.
  unfold is_, RecordRecTy_getAsString. split.
  - destruct Ty as [p|s]; [|discriminate].
    intros H. exists p. split; [reflexivity|].
    destruct (String.eqb_spec (RecordPtr.getName p) TypeName) as [E|E];
      [now left | right].
    destruct (RecordKeeper.deref RK p) as [R|e]; [|discriminate].
    simpl in H. injection H as H. exists R. split; [reflexivity|].
    unfold Rec.isSubClassOf in H. apply existsb_exists in H.
    destruct H as (SC & HSC & He). apply eqb_nullable_eq in He.
    symmetry in He. pose proof He as He'.
    apply getClass_Some in He'. destruct He' as [-> _].
    now split.
  - intros (p & -> & [E | (R & HR & HC & HI)]).
    + subst TypeName. now rewrite String.eqb_refl.
    + destruct (RecordPtr.getName p =? TypeName)%string; [reflexivity|].
      rewrite HR. simpl. f_equal.
      unfold Rec.isSubClassOf. apply existsb_exists.
      exists (RecordPtr.Class TypeName). split; [exact HI|].
      rewrite HC. now apply eqb_nullable_eq.
Qed.

Lemma bind_Fail {A B : Type} (m : result A) (k : A -> result B) (e : Abort) :
  bind m k = Fail e -> m = Fail e \/ exists a, m = Ok a /\ k a = Fail e.
Proof.
  destruct m as [a|e']; simpl; intros H; [right; now exists a | left].
  now injection H as ->.
Qed.

(** [is] aborts only by reading through a pointer into nothing. *)
Lemma is_Fail (RK : RecordKeeper.t) (Ty : RecTy) (TypeName : string)
    (e : Abort) :
  is_ RK Ty TypeName = Fail e -> e = DanglingPointer.
Proof.
  unfold is_. destruct Ty as [p|s]; [|discriminate].
  destruct (RecordRecTy_getAsString p =? TypeName)%string; [discriminate|].
  unfold RecordKeeper.deref.
  destruct p as [n|n]; destruct (RecordKeeper.lookup _ n); simpl; congruence.
Qed.

Lemma getChildrenOf_loop_filter (RK : RecordKeeper.t)
    (Values : list RecordVal.t) :
  forall Children,
    getChildrenOf_loop RK Values Children =
    if forallb (layoutDecided RK) Values
    then Ok (Children ++ filter (layoutTyped RK) Values)%list
    else Fail DanglingPointer.
Proof.
  induction Values as [|F Values IH]; intros Children; cbn [getChildrenOf_loop].
  - cbn [forallb filter]. now rewrite app_nil_r.
  - cbn [forallb filter]. unfold layoutDecided at 1, layoutTyped at 1.
    destruct (isLayout RK (RecordVal.getType F)) as [b|e] eqn:HL; simpl.
    + destruct b; simpl; rewrite IH.
      * destruct (forallb _ Values); [|reflexivity].
        now rewrite <- app_assoc.
      * reflexivity.
    + now rewrite (is_Fail _ _ _ _ HL).
Qed.

Lemma getChildrenOf_filter (RK : RecordKeeper.t) (Node : RecordPtr.t) :
  getChildrenOf RK Node =
  match RecordKeeper.deref RK Node with
  | Ok R =>
      if forallb (layoutDecided RK) (Rec.getValues R)
      then Ok (filter (layoutTyped RK) (Rec.getValues R))
      else Fail DanglingPointer
  | Fail e => Fail e
  end.
Proof.
  unfold getChildrenOf.
  destruct (RecordKeeper.deref RK Node) as [R|e]; simpl; [|reflexivity].
  now rewrite getChildrenOf_loop_filter.
Qed.

(** X3. [getChildrenOf] returns the fields of the node whose type
    [isLayout] accepts, in declaration order and nothing else; it aborts,
    on a dangling pointer, exactly when the node or the record type of
    some field cannot be read. Fields of other types (names, flags) are
    never children. *)
Theorem getChildrenOf_filters_layout_fields (RK : RecordKeeper.t)
    (Node : RecordPtr.t) :
  getChildrenOf RK Node =
  match RecordKeeper.deref RK Node with
  | Ok R =>
      if forallb (layoutDecided RK) (Rec.getValues R)
      then Ok (filter (layoutTyped RK) (Rec.getValues R))
      else Fail DanglingPointer
  | Fail e => Fail e
  end.
Proof. exact (getChildrenOf_filter RK Node). Qed.

Lemma find_split {A : Type} (f : A -> bool) (l : list A) (a : A) :
  find f l = Some a <->
  exists before after,
    l = (before ++ a :: after)%list /\ f a = true /\
    forall b, In b before -> f b = false.
Proof.
  induction l as [|x l IH]; simpl.
  - split; [discriminate|]. intros (before & after & H & _).
    now destruct before.
  - destruct (f x) eqn:Hx; split.
    + intros [= ->]. exists [], l. now repeat split.
    + intros (before & after & H & Ha & Hb).
      destruct before as [|y before]; simpl in H; injection H as E1 E2.
      * now rewrite E1.
      * pose proof (Hb y (or_introl eq_refl)). congruence.
    + intros H. apply IH in H. destruct H as (before & after & -> & Ha & Hb).
      exists (x :: before), after. repeat split; trivial.
      intros b [<-|Hin]; [exact Hx | now apply Hb].
    + intros (before & after & H & Ha & Hb).
      destruct before as [|y before]; simpl in H; injection H as E1 E2.
      * congruence.
      * apply IH. exists before, after. repeat split; trivial.
        intros b Hin. apply Hb. now right.
Qed.

Lemma count_registeredClass (RK : RecordKeeper.t) (A : RecordPtr.t) :
  SmallPtrSet.count (registry RK) (Some A) = true <-> registeredClass RK A.
Proof.
  rewrite count_In, registry_In. unfold registeredClass. split.
  - intros (E & HE & HA). exists (fst E). split; [|now symmetry].
    simpl in HE. repeat destruct HE as [<-|HE]; simpl; tauto.
  - intros (C & HC & HA). unfold categoryClasses in HC. simpl in HC.
    repeat destruct HC as [<-|HC]; try (now destruct HC);
      [ exists ("Decl", Some Schema.Decl)
      | exists ("Stmt", Some Schema.Stmt)
      | exists ("Expr", Some Schema.Expr)
      | exists ("Type", Some Schema.Type_)
      | exists ("Pattern", Some Schema.Pattern)
      | exists ("Token", None)
      | exists ("SyntaxCollection", Some Schema.SyntaxCollection) ];
      (split; [simpl; tauto | now symmetry]).
Qed.

(** X4. With the category set [SyntaxTableGenMain] builds,
    [getSyntaxCategory] returns the first superclass, in the order of the
    record's superclass list, that is an existing class of a registered
    name; it returns nothing exactly when no superclass is one. A
    registered name whose class is missing from the schema puts a null
    pointer into the set, which no superclass matches. *)
Theorem getSyntaxCategory_first_registered (RK : RecordKeeper.t)
    (Def : RecordPtr.t) :
  (forall A,
     getSyntaxCategory RK (registry RK) Def = Ok (Some A) <->
     exists R before after,
       RecordKeeper.deref RK Def = Ok R /\
       Rec.getSuperClasses R = (before ++ A :: after)%list /\
       registeredClass RK A /\
       forall B, In B before -> ~ registeredClass RK B) /\
  (getSyntaxCategory RK (registry RK) Def = Ok None <->
   exists R,
     RecordKeeper.deref RK Def = Ok R /\
     forall B, In B (Rec.getSuperClasses R) -> ~ registeredClass RK B).
Proof.
  unfold getSyntaxCategory. split; [intros A|]; split.
  - destruct (RecordKeeper.deref RK Def) as [R|e]; simpl; [|discriminate].
    intros [= H]. apply find_split in H.
    destruct H as (before & after & HS & HA & HB).
    exists R, before, after. repeat split; trivial.
    + now apply count_registeredClass.
    + intros B HIn HR. apply count_registeredClass in HR.
      rewrite (HB B HIn) in HR. discriminate.
  - intros (R & before & after & -> & HS & HA & HB). simpl. f_equal.
    apply find_split. exists before, after. repeat split; trivial.
    + now apply count_registeredClass.
    + intros B HIn.
      destruct (SmallPtrSet.count (registry RK) (Some B)) eqn:Hc;
        [|reflexivity].
      apply count_registeredClass in Hc. now destruct (HB B HIn).
  - destruct (RecordKeeper.deref RK Def) as [R|e]; simpl; [|discriminate].
    intros [= H]. exists R. split; [reflexivity|].
    intros B HIn HR. apply count_registeredClass in HR.
    pose proof (find_none _ _ H B HIn) as HN. cbv beta in HN.
    rewrite HR in HN. discriminate.
  - intros (R & -> & HB). simpl. f_equal.
    destruct (find _ (Rec.getSuperClasses R)) as [A|] eqn:HF; [|reflexivity].
    apply find_some in HF. destruct HF as [HIn Hc].
    apply count_registeredClass in Hc. now destruct (HB A HIn).
Qed.

(** A category [getSyntaxCategory] finds in the set is registered. *)
Lemma getSyntaxCategory_registered (RK : RecordKeeper.t) (Def A : RecordPtr.t) :
  getSyntaxCategory RK (registry RK) Def = Ok (Some A) <->
  exists R,
    RecordKeeper.deref RK Def = Ok R /\
    find (fun Super => SmallPtrSet.count (registry RK) (Some Super))
         (Rec.getSuperClasses R) = Some A.
Proof.
  unfold getSyntaxCategory.
  destruct (RecordKeeper.deref RK Def) as [R|e]; simpl; split.
  - intros [= H]. now exists R.
  - intros (R' & [= <-] & H). now rewrite H.
  - discriminate.
  - intros (R' & H & _). discriminate.
Qed.

(** X5. With the category set [SyntaxTableGenMain] builds, the
    placeholder kind [getMissingSyntaxKind] returns for a child is the word
    Missing followed by the name of the first registered superclass of the
    child's node: one of MissingDecl, MissingStmt, MissingExpr, MissingType,
    MissingPattern and MissingSyntaxCollection. It aborts on the empty
    optional when the node has no registered superclass, and its switch
    matches nothing exactly when that superclass is the class Token. *)
Theorem getMissingSyntaxKind_names_first_category (RK : RecordKeeper.t)
    (Child : RecordVal.t) :
  getMissingSyntaxKind RK (registry RK) Child =
  match getLayoutNodeRecord_Child RK Child with
  | Ok Node =>
      match getSyntaxCategory RK (registry RK) Node with
      | Ok (Some Category) =>
          if (RecordPtr.getName Category =? "Token")%string
          then Fail StringSwitchFellOff
          else Ok ("Missing" ++ RecordPtr.getName Category)
      | Ok None => Fail NoOptionalValue
      | Fail e => Fail e
      end
  | Fail e => Fail e
  end.
Proof.
  unfold getMissingSyntaxKind.
  destruct (getLayoutNodeRecord_Child RK Child) as [Node|e]; simpl;
    [|reflexivity].
  destruct (getSyntaxCategory RK (registry RK) Node) as [[A|]|e] eqn:HC; simpl;
    try reflexivity.
  apply (proj1 (getSyntaxCategory_registered RK Node A)) in HC.
  destruct HC as (R & _ & HF). apply find_some in HF. destruct HF as [_ Hc].
  apply count_registeredClass in Hc. destruct Hc as (C & HIn & HA).
  apply getClass_Some in HA. destruct HA as [-> _].
  unfold categoryClasses in HIn. simpl in HIn.
  repeat destruct HIn as [<-|HIn]; try reflexivity. destruct HIn.
Qed.

Lemma getLayoutNodeRecord_Child_isLayout (RK : RecordKeeper.t)
    (Child : RecordVal.t) (node : RecordPtr.t) :
  getLayoutNodeRecord_Child RK Child = Ok node ->
  isLayout RK (RecordVal.getType Child) = Ok true.
Proof.
  unfold getLayoutNodeRecord_Child. intros H.
  apply bind_Ok in H. destruct H as (b & Hb & H).
  destruct b; [exact Hb | discriminate].
Qed.

(** X6. The two readings of a token's spelling agree: whenever the token
    record holds a string in its field Spelling, as makeBlank requires,
    [getTokenSpelling] returns that string, so the constructor asserts the
    spelling makeBlank passes to the missing token. They part when the
    record has no such field: [getTokenSpelling] returns the empty spelling
    where [getValueAsString] is a fatal error. *)
Theorem getTokenSpelling_agrees_with_field (RK : RecordKeeper.t)
    (Child : RecordVal.t) (node : RecordPtr.t) (N : Rec.t) :
  getLayoutNodeRecord_Child RK Child = Ok node ->
  RecordKeeper.deref RK node = Ok N ->
  (forall s,
     Rec.getValueAsString N "Spelling" = Ok s ->
     getTokenSpelling RK Child = Ok s) /\
  (Rec.getValue N "Spelling" = None ->
   getTokenSpelling RK Child = Ok EmptyString /\
   Rec.getValueAsString N "Spelling" = Fail FatalError).
Proof.
  intros HC HN.
  pose proof (getLayoutNodeRecord_Child_isLayout RK Child node HC) as HL.
  split.
  - intros s Hs. exact (getTokenSpelling_field RK Child node N s HL HC HN Hs).
  - intros HV. unfold getTokenSpelling, Rec.getValueAsString.
    rewrite HL. simpl. rewrite HC. simpl. rewrite HN. simpl.
    unfold Rec.getValue in HV. unfold Rec.getValue. now rewrite HV.
Qed.

Lemma getTokenSpelling_agrees_with_field_witness :
  getTokenSpelling Example.Records
    (Example.field "IfKeyword" Example.Layout_
       (DefInit (RecordPtr.Def "anonymous_0")))
  = Ok "if" /\
  getTokenSpelling Example.Defective
    (Example.field "WhileKeyword" Example.Layout_
       (DefInit (RecordPtr.Def "anonymous_6")))
  = Ok EmptyString.
Proof.
  split.
  - exact (proj1 (getTokenSpelling_agrees_with_field
                    Example.Records
                    (Example.field "IfKeyword" Example.Layout_
                       (DefInit (RecordPtr.Def "anonymous_0")))
                    (RecordPtr.Def "kw_if")
                    (snd (Example.token "kw_if" "kw_if" "if" []))
                    eq_refl eq_refl)
                 "if" eq_refl).
  - exact (proj1 (proj2 (getTokenSpelling_agrees_with_field
                           Example.Defective
                           (Example.field "WhileKeyword" Example.Layout_
                              (DefInit (RecordPtr.Def "anonymous_6")))
                           (RecordPtr.Def "kw_while")
                           (Rec.mk
                              [RecordPtr.Class "Syntax"; RecordPtr.Class "Token"]
                              [Example.field "NAME" Example.string_
                                 (StringInit "kw_while");
                               Example.field "Kind" Example.string_
                                 (StringInit "kw_while")])
                           eq_refl eq_refl)
                        eq_refl)).
Defined.

(** ** The generators *)

Lemma layoutTyped_declared (RK : RecordKeeper.t) (Child : RecordVal.t) :
  layoutTyped RK Child = true ->
  exists d,
    RecordVal.getType Child = RecordRecTy d /\
    RecordPtr.eqb_nullable (Some d) (RecordKeeper.getClass RK "Token")
    = RecordPtr.eqb d (RecordPtr.Class "Token").
Proof.
  unfold layoutTyped, isLayout, is_, RecordRecTy_getAsString.
  destruct (RecordVal.getType Child) as [d|s]; [|discriminate].
  intros H. exists d. split; [reflexivity|].
  unfold RecordKeeper.getClass.
  destruct (RecordPtr.eqb d (RecordPtr.Class "Token")) eqn:He.
  - apply RecordPtr_eqb_eq in He. subst d. simpl in H.
    destruct (RecordKeeper.lookup _ "Token"); [reflexivity | discriminate].
  - destruct (RecordKeeper.lookup _ "Token"); [exact He | reflexivity].
Qed.

Lemma printSyntaxInterface_fields (RK : RecordKeeper.t)
    (Node : RecordPtr.t) (R : Rec.t) (P : RecordPtr.t)
    (Children : list RecordVal.t) :
  RecordKeeper.deref RK Node = Ok R ->
  back (Rec.getSuperClasses R) = Ok P ->
  getChildrenOf RK Node = Ok Children ->
  exists ss,
    Forall2 (fun Child s =>
               Schema.name s = RecordVal.getName Child /\
               RecordVal.getType Child = RecordRecTy (Schema.declared s))
            Children ss /\
    emits (printSyntaxInterface RK Node) false
          (Emitted.handleDeclaration
             (Schema.mkNodeDefinition
                (RecordPtr.getName Node) (RecordPtr.getName P) ss)).
Proof.
  intros HR HP HC.
  pose proof (getChildrenOf_filter RK Node) as HF.
  rewrite HR, HC in HF.
  destruct (forallb (layoutDecided RK) (Rec.getValues R)); [|discriminate].
  injection HF as HF.
  assert (HT : Forall (fun Child => layoutTyped RK Child = true) Children).
  { rewrite HF. apply Forall_forall. intros Child HIn.
    now apply filter_In in HIn. }
  clear HF.
  set (slot := fun Child =>
         Schema.mkChildSlot
           (RecordVal.getName Child)
           (match RecordVal.getType Child with
            | RecordRecTy d => d
            | OtherRecTy _ => Node
            end)
           EmptyString (Schema.NodeTarget Schema.Decl)).
  set (Rel := fun Child s =>
         s = slot Child /\ layoutTyped RK Child = true).
  assert (HRel : Forall2 Rel Children (map slot Children)).
  { clear - HT. induction HT as [|Child Children HCh _ IH]; cbn [map];
      constructor; [now split | exact IH]. }
  exists (map slot Children). split.
  - clear - HT. induction HT as [|Child Children HCh _ IH]; cbn [map];
      constructor; [|exact IH].
    destruct (layoutTyped_declared RK Child HCh) as (d & Hd & _).
    unfold slot. cbn [Schema.name Schema.declared]. now rewrite Hd.
  - unfold printSyntaxInterface.
    eapply emits_eq.
    + emit.
      * eapply (emits_for_each _ Emitted.cursorEntry Rel); [|exact HRel].
        intros Child s [-> _]. unfold Emitted.cursorEntry, slot.
        cbn [Schema.name].
        eapply emits_eq; [emit|]. text_eq.
      * eapply (emits_for_each _
                  (fun s => Emitted.accessorSignature s ++
                            Emitted.updaterSignature
                              (Schema.mkNodeDefinition
                                 (RecordPtr.getName Node)
                                 (RecordPtr.getName P) (map slot Children)) s)
                  Rel); [|exact HRel].
        intros Child s [-> HCh].
        destruct (layoutTyped_declared RK Child HCh) as (d & Hd & Htoken).
        unfold Emitted.accessorSignature, Emitted.updaterSignature,
          Emitted.updaterArgument, Emitted.declaredHandle,
          Emitted.handleName, slot.
        cbn [Schema.name Schema.declared Schema.nodeName].
        rewrite Hd, <- Htoken.
        assert (Hcast : cast_RecordRecTy (RecordRecTy d) = Ok d)
          by reflexivity.
        eapply emits_eq; [emit|].
        unfold RecordRecTy_getAsString.
        destruct (RecordPtr.eqb_nullable _ _); text_eq.
    + unfold Emitted.handleDeclaration, Emitted.handleHead,
        Emitted.handleConstructor, Emitted.cursorEnumeration,
        Emitted.kindPredicate, Emitted.wrapperName, Emitted.handleName.
      cbn [Schema.nodeName Schema.parent Schema.slots]. text_eq.
Qed.

(** X7. The handle declaration of a node depends only on the node's name,
    its last superclass and the names and declared types of its layout
    fields: whenever the node can be read, has a superclass and
    [getChildrenOf] returns, [printSyntaxInterface] prints the declaration,
    whatever the fields hold. Layout records, tokens and categories are
    not looked at, so the declaration is printed also for a node whose
    definition cannot be generated. *)
Theorem printSyntaxInterface_reads_fields_only (RK : RecordKeeper.t)
    (Node : RecordPtr.t) (R : Rec.t) (P : RecordPtr.t)
    (Children : list RecordVal.t) :
  RecordKeeper.deref RK Node = Ok R ->
  back (Rec.getSuperClasses R) = Ok P ->
  getChildrenOf RK Node = Ok Children ->
  exists ss,
    Forall2 (fun Child s =>
               Schema.name s = RecordVal.getName Child /\
               RecordVal.getType Child = RecordRecTy (Schema.declared s))
            Children ss /\
    emits (printSyntaxInterface RK Node) false
          (Emitted.handleDeclaration
             (Schema.mkNodeDefinition
                (RecordPtr.getName Node) (RecordPtr.getName P) ss)).
Proof. exact (printSyntaxInterface_fields RK Node R P Children). Qed.

Lemma printSyntaxInterface_reads_fields_only_witness :
  exists ss,
    map Schema.name ss = ["WhileKeyword"] /\
    printSyntaxInterface Example.Defective (RecordPtr.Def "WhileStmt")
      EmptyString =
    Ok (false,
        Emitted.handleDeclaration
          (Schema.mkNodeDefinition "WhileStmt" "Stmt" ss)) /\
    printSyntaxDataImplementation Example.Defective
      (registry Example.Defective) (RecordPtr.Def "WhileStmt") EmptyString
    = Fail FatalError.
Proof.
  destruct (printSyntaxInterface_reads_fields_only
              Example.Defective (RecordPtr.Def "WhileStmt")
              (Rec.mk [RecordPtr.Class "Syntax"; RecordPtr.Class "Stmt"]
                      [Example.field "NAME" Example.string_
                         (StringInit "WhileStmt");
                       Example.field "WhileKeyword" Example.Layout_
                         (DefInit (RecordPtr.Def "anonymous_6"))])
              (RecordPtr.Class "Stmt")
              [Example.field "WhileKeyword" Example.Layout_
                 (DefInit (RecordPtr.Def "anonymous_6"))]
              eq_refl eq_refl eq_refl)
    as (ss & HF & Hemits).
  exists ss. split; [|split].
  - inversion HF as [|Child s Children ss' [Hn _] HF']; subst.
    inversion HF'; subst. cbn [map]. now rewrite Hn.
  - exact (Hemits EmptyString).
  - reflexivity.
Defined.

(** X8. For a tree category whose class is not in the schema, both
    generators stop with the fatal error of
    [getAllDerivedDefinitions] before anything is printed, and either run
    aborts without an output document. *)
Theorem missing_category_class_is_fatal (RK : RecordKeeper.t) (C : string)
    (L : TargetLanguage.t) :
  In C ["Decl"; "Expr"; "Stmt"; "Type"; "Pattern"] ->
  RecordKeeper.getClass RK C = None ->
  (forall A os, genInterface RK (options.mk A L C) os = Fail FatalError) /\
  (forall A S os,
     genImplementation RK S (options.mk A L C) os = Fail FatalError) /\
  main (options.mk ActionType.GenInterface L C) (Some RK) =
    mkOutcome (Aborted FatalError) [] None /\
  main (options.mk ActionType.GenImplementation L C) (Some RK) =
    mkOutcome (Aborted FatalError) [] None.
Proof.
  intros HIn HC.
  assert (HI : forall A os,
            genInterface RK (options.mk A L C) os = Fail FatalError).
  { intros A os. rewrite (genInterface_tree RK _ (recognized_tree C L A HIn)).
    unfold printSyntaxInterfaces, RecordKeeper.getAllDerivedDefinitions.
    cbn [options.Category]. now rewrite HC. }
  assert (HD : forall A S os,
            genImplementation RK S (options.mk A L C) os = Fail FatalError).
  { intros A S os.
    rewrite (genImplementation_tree RK S _ (recognized_tree C L A HIn)).
    unfold printSyntaxImplementations, RecordKeeper.getAllDerivedDefinitions.
    cbn [options.Category]. now rewrite HC. }
  split; [exact HI|]. split; [exact HD|]. split.
  - rewrite (main_known _ _ (tree_known _ (recognized_tree C L _ HIn))).
    unfold TableGenMain. rewrite SyntaxTableGenMain_dispatch.
    cbn [options.Action]. now rewrite HI.
  - rewrite (main_known _ _ (tree_known _ (recognized_tree C L _ HIn))).
    unfold TableGenMain. rewrite SyntaxTableGenMain_dispatch.
    cbn [options.Action]. now rewrite HD.
Qed.

Lemma missing_category_class_is_fatal_witness :
  genInterface (RecordKeeper.mk [] []) (Example.interface "Decl") EmptyString
    = Fail FatalError /\
  main (Example.implementation "Decl") (Some (RecordKeeper.mk [] []))
    = mkOutcome (Aborted FatalError) [] None.
Proof.
  destruct (missing_category_class_is_fatal
              (RecordKeeper.mk [] []) "Decl" TargetLanguage.CPlusPlus
              (or_introl eq_refl) eq_refl) as (HI & _ & _ & HM).
  split; [exact (HI ActionType.GenInterface EmptyString) | exact HM].
Defined.

(** X9. The umbrella definition is skipped before it is read: when every
    def derived from the category class is named Any followed by the
    category (or there is none), both generators return false and leave the
    stream as it was, whatever those defs hold. *)
Theorem only_umbrella_prints_nothing (RK : RecordKeeper.t) (opts : options.t)
    (Nodes : list RecordPtr.t) :
  treeCategory (getCategory opts) = true ->
  RecordKeeper.getAllDerivedDefinitions RK (options.Category opts) = Ok Nodes ->
  (forall Node, In Node Nodes ->
     RecordPtr.getName Node = "Any" ++ options.Category opts) ->
  (forall os, genInterface RK opts os = Ok (false, os)) /\
  (forall S os, genImplementation RK S opts os = Ok (false, os)).
Proof.
  intros HT HN HA.
  assert (Hskip : forall (body : RecordPtr.t -> Printer unit) os,
            for_each Nodes
              (fun Node =>
                 if (RecordPtr.getName Node
                     =? "Any" ++ options.Category opts)%string
                 then ret tt else body Node) os = Ok (tt, os)).
  { intros body. clear HN. induction Nodes as [|Node Nodes IH]; intros os.
    - reflexivity.
    - cbn [for_each]. rewrite (HA Node (or_introl eq_refl)).
      rewrite String.eqb_refl. cbn [bind Monad_Printer ret].
      apply IH. intros N HIn. apply HA. now right. }
  split.
  - intros os. rewrite (genInterface_tree RK opts HT).
    unfold printSyntaxInterfaces. cbn [bind Monad_Printer]. unfold lift.
    rewrite HN. cbv zeta. now rewrite Hskip.
  - intros S os. rewrite (genImplementation_tree RK S opts HT).
    unfold printSyntaxImplementations. cbn [bind Monad_Printer]. unfold lift.
    rewrite HN. cbv zeta. now rewrite Hskip.
Qed.

Lemma only_umbrella_prints_nothing_witness :
  genInterface Example.Records (Example.interface "Expr") "// header"
    = Ok (false, "// header") /\
  genImplementation Example.Records (registry Example.Records)
    (Example.implementation "Expr") "// header"
    = Ok (false, "// header").
Proof.
  split.
  - refine (proj1 (only_umbrella_prints_nothing
                     Example.Records (Example.interface "Expr")
                     [RecordPtr.Def "AnyExpr"] eq_refl eq_refl _)
                  "// header").
    intros Node [<-|[]]. reflexivity.
  - refine (proj2 (only_umbrella_prints_nothing
                     Example.Records (Example.implementation "Expr")
                     [RecordPtr.Def "AnyExpr"] eq_refl eq_refl _)
                  _ "// header").
    intros Node [<-|[]]. reflexivity.
Defined.

(** ** Where a run can abort *)

Ltac defect := unfold schemaDefect; simpl; tauto.

Lemma defectOnly_Ok {A : Type} (a : A) : defectOnly (Ok a).
Proof. intros e H. discriminate. Qed.

Lemma defectOnly_Fail {A : Type} (e : Abort) :
  schemaDefect e -> defectOnly (@Fail A e).
Proof. intros H e' [= <-]. exact H. Qed.

Lemma defectOnly_bind {A B : Type} (r : result A) (k : A -> result B) :
  defectOnly r -> (forall a, r = Ok a -> defectOnly (k a)) ->
  defectOnly (bind r k).
Proof.
  intros Hr Hk e H. apply bind_Fail in H.
  destruct H as [H | (a & Ha & H)]; [exact (Hr e H) | exact (Hk a Ha e H)].
Qed.

Lemma deref_defect (RK : RecordKeeper.t) (p : RecordPtr.t) :
  defectOnly (RecordKeeper.deref RK p).
Proof.
  unfold RecordKeeper.deref.
  destruct p as [n|n]; destruct (RecordKeeper.lookup _ n);
    first [apply defectOnly_Ok | apply defectOnly_Fail; defect].
Qed.

Lemma is_defect (RK : RecordKeeper.t) (Ty : RecTy) (TypeName : string) :
  defectOnly (is_ RK Ty TypeName).
Proof. intros e H. apply is_Fail in H. subst e. defect. Qed.

Lemma cast_DefInit_defect (I : Init) : defectOnly (cast_DefInit I).
Proof.
  destruct I; first [apply defectOnly_Ok | apply defectOnly_Fail; defect].
Qed.

Lemma back_defect {A : Type} (l : list A) : defectOnly (back l).
Proof.
  unfold back.
  destruct (List.rev l); first [apply defectOnly_Ok | apply defectOnly_Fail; defect].
Qed.

Lemma getValueAsString_defect (R : Rec.t) (FieldName : string) :
  defectOnly (Rec.getValueAsString R FieldName).
Proof.
  unfold Rec.getValueAsString.
  destruct (Rec.getValue R FieldName) as [Val|];
    [destruct (RecordVal.getValue Val)|];
    first [apply defectOnly_Ok | apply defectOnly_Fail; defect].
Qed.

Lemma getAllDerivedDefinitions_defect (RK : RecordKeeper.t) (C : string) :
  defectOnly (RecordKeeper.getAllDerivedDefinitions RK C).
Proof.
  unfold RecordKeeper.getAllDerivedDefinitions.
  destruct (RecordKeeper.getClass RK C);
    first [apply defectOnly_Ok | apply defectOnly_Fail; defect].
Qed.

Lemma getLayoutNodeRecord_defect (RK : RecordKeeper.t) (Rec : RecordPtr.t) :
  defectOnly (getLayoutNodeRecord RK Rec).
Proof.
  unfold getLayoutNodeRecord.
  apply defectOnly_bind; [apply deref_defect|]. intros R _.
  destruct (Rec.getValue R "Node");
    [apply cast_DefInit_defect | apply defectOnly_Fail; defect].
Qed.

(** Once [isLayout] holds of the field, the assertions of the layout
    helpers hold. *)
Lemma getLayoutNodeRecord_Child_defect (RK : RecordKeeper.t)
    (Child : RecordVal.t) :
  isLayout RK (RecordVal.getType Child) = Ok true ->
  defectOnly (getLayoutNodeRecord_Child RK Child).
Proof.
  intros HL. unfold getLayoutNodeRecord_Child. rewrite HL.
  cbn [bind Monad_result assert].
  apply defectOnly_bind; [apply cast_DefInit_defect|]. intros NodeDef _.
  apply getLayoutNodeRecord_defect.
Qed.

Lemma getLayoutNodeType_defect (RK : RecordKeeper.t) (Child : RecordVal.t) :
  isLayout RK (RecordVal.getType Child) = Ok true ->
  defectOnly (getLayoutNodeType RK Child).
Proof.
  intros HL. unfold getLayoutNodeType. rewrite HL.
  cbn [bind Monad_result assert].
  apply defectOnly_bind; [apply cast_DefInit_defect|]. intros NodeDef _.
  apply defectOnly_bind; [apply deref_defect|]. intros R _.
  destruct (Rec.getValue R "Node"); [|apply defectOnly_Fail; defect].
  apply defectOnly_bind; [apply cast_DefInit_defect|]. intros NodeValue _.
  apply defectOnly_Ok.
Qed.

Lemma getTokenSpelling_defect (RK : RecordKeeper.t) (Value : RecordVal.t) :
  isLayout RK (RecordVal.getType Value) = Ok true ->
  defectOnly (getTokenSpelling RK Value).
Proof.
  intros HL. unfold getTokenSpelling. rewrite HL.
  cbn [bind Monad_result assert].
  apply defectOnly_bind; [now apply getLayoutNodeRecord_Child_defect|].
  intros TokenRec _.
  apply defectOnly_bind; [apply deref_defect|]. intros R _.
  destruct (find _ (Rec.getValues R)); apply defectOnly_Ok.
Qed.

(** The two layout helpers return the same record. *)
Lemma getLayoutNodeType_Record (RK : RecordKeeper.t) (Child : RecordVal.t) :
  getLayoutNodeType RK Child = getLayoutNodeRecord_Child RK Child.
Proof.
  unfold getLayoutNodeType, getLayoutNodeRecord_Child, getLayoutNodeRecord.
  destruct (isLayout RK (RecordVal.getType Child)) as [[|]|e]; simpl;
    try reflexivity.
  destruct (cast_DefInit (RecordVal.getValue Child)) as [NodeDef|e]; simpl;
    [|reflexivity].
  destruct (RecordKeeper.deref RK NodeDef) as [R|e]; simpl; [|reflexivity].
  destruct (Rec.getValue R "Node") as [NodeField|]; [|reflexivity].
  now destruct (cast_DefInit (RecordVal.getValue NodeField)).
Qed.

Lemma is_characterised_if (RK : RecordKeeper.t) (p : RecordPtr.t)
    (TypeName : string) :
  RecordPtr.getName p = TypeName \/
  (exists R,
     RecordKeeper.deref RK p = Ok R /\
     RecordKeeper.getClass RK TypeName = Some (RecordPtr.Class TypeName) /\
     In (RecordPtr.Class TypeName) (Rec.getSuperClasses R)) ->
  is_ RK (RecordRecTy p) TypeName = Ok true.
Proof.
  unfold is_, RecordRecTy_getAsString.
  intros [E | (R & HR & HC & HI)].
  - subst TypeName. now rewrite String.eqb_refl.
  - destruct (RecordPtr.getName p =? TypeName)%string; [reflexivity|].
    rewrite HR. simpl. f_equal.
    unfold Rec.isSubClassOf. apply existsb_exists.
    exists (RecordPtr.Class TypeName). split; [exact HI|].
    rewrite HC. now apply eqb_nullable_eq.
Qed.

(** A node that is not a token has no Token class among its registered
    superclasses, so the switch of [getMissingSyntaxKind] is matched. *)
Lemma getMissingSyntaxKind_defect (RK : RecordKeeper.t) (Child : RecordVal.t)
    (node : RecordPtr.t) :
  isLayout RK (RecordVal.getType Child) = Ok true ->
  getLayoutNodeType RK Child = Ok node ->
  isToken RK (RecordRecTy node) = Ok false ->
  defectOnly (getMissingSyntaxKind RK (registry RK) Child).
Proof.
  intros HL HTy HTok.
  rewrite getLayoutNodeType_Record in HTy.
  unfold getMissingSyntaxKind. rewrite HTy. cbn [bind Monad_result].
  destruct (getSyntaxCategory RK (registry RK) node) as [[A|]|e] eqn:HC;
    cbn [bind Monad_result].
  - apply (proj1 (getSyntaxCategory_registered RK node A)) in HC.
    destruct HC as (R & HR & HF). apply find_some in HF.
    destruct HF as [HIn Hc].
    apply count_registeredClass in Hc. destruct Hc as (C & HC & HA).
    pose proof HA as HA'. apply getClass_Some in HA'. destruct HA' as [-> _].
    unfold categoryClasses in HC. simpl in HC.
    repeat destruct HC as [<-|HC];
      try (apply defectOnly_Ok); try (now destruct HC).
    exfalso.
    assert (HT : is_ RK (RecordRecTy node) "Token" = Ok true).
    { apply is_characterised_if. right. exists R. now repeat split. }
    unfold isToken in HTok. congruence.
  - apply defectOnly_Fail. defect.
  - intros e' [= <-]. unfold getSyntaxCategory in HC.
    destruct (RecordKeeper.deref RK node) as [R|e0] eqn:HR; [discriminate|].
    simpl in HC. injection HC as <-. exact (deref_defect RK node e0 HR).
Qed.

(** Every child [getChildrenOf] returns passes [isLayout]. *)
Lemma getChildrenOf_isLayout (RK : RecordKeeper.t) (Node : RecordPtr.t)
    (Children : list RecordVal.t) :
  getChildrenOf RK Node = Ok Children ->
  forall Child, In Child Children ->
    isLayout RK (RecordVal.getType Child) = Ok true.
Proof.
  rewrite getChildrenOf_filter.
  destruct (RecordKeeper.deref RK Node) as [R|e]; [|discriminate].
  destruct (forallb _ _); [|discriminate].
  intros [= <-] Child HIn. apply filter_In in HIn. destruct HIn as [_ HT].
  unfold layoutTyped in HT.
  destruct (isLayout RK (RecordVal.getType Child)) as [b|e]; congruence.
Qed.

Lemma getChildrenOf_defect (RK : RecordKeeper.t) (Node : RecordPtr.t) :
  defectOnly (getChildrenOf RK Node).
Proof.
  rewrite getChildrenOf_filter.
  destruct (RecordKeeper.deref RK Node) as [R|e] eqn:HR.
  - destruct (forallb _ _);
      [apply defectOnly_Ok | apply defectOnly_Fail; defect].
  - intros e' [= <-]. exact (deref_defect RK Node e HR).
Qed.

Lemma aborts_ret {A : Type} (a : A) : abortsOnDefect (ret a).
Proof. intros os e H. discriminate. Qed.

Lemma aborts_OS : abortsOnDefect OS.
Proof. apply aborts_ret. Qed.

Lemma aborts_shl (p : Printer unit) (s : string) :
  abortsOnDefect p -> abortsOnDefect (p << s).
Proof.
  intros Hp os e H. unfold shl in H.
  destruct (p os) as [[u os']|e'] eqn:Hpos; [discriminate|].
  injection H as <-. exact (Hp os e' Hpos).
Qed.

Lemma aborts_bind {A B : Type} (m : Printer A) (k : A -> Printer B) :
  abortsOnDefect m -> (forall a, abortsOnDefect (k a)) ->
  abortsOnDefect (bind m k).
Proof.
  intros Hm Hk os e H. cbn [bind Monad_Printer] in H.
  destruct (m os) as [[a os']|e'] eqn:Hmos.
  - exact (Hk a os' e H).
  - injection H as <-. exact (Hm os e' Hmos).
Qed.

(** After a lookup the rest runs knowing what the lookup returned. *)
Lemma aborts_bind_lift {A B : Type} (r : result A) (k : A -> Printer B) :
  defectOnly r -> (forall a, r = Ok a -> abortsOnDefect (k a)) ->
  abortsOnDefect (bind (lift r) k).
Proof.
  intros Hr Hk os e H. cbn [bind Monad_Printer] in H. unfold lift in H.
  destruct r as [a|e'].
  - exact (Hk a eq_refl os e H).
  - injection H as <-. exact (Hr e' eq_refl).
Qed.

Lemma aborts_lift {A : Type} (r : result A) :
  defectOnly r -> abortsOnDefect (lift r).
Proof.
  intros Hr os e H. unfold lift in H. destruct r as [a|e']; [discriminate|].
  injection H as <-. exact (Hr e' eq_refl).
Qed.

Lemma aborts_for_each {A : Type} (Xs : list A) (body : A -> Printer unit) :
  (forall X, In X Xs -> abortsOnDefect (body X)) ->
  abortsOnDefect (for_each Xs body).
Proof.
  induction Xs as [|X Xs IH]; intros Hbody; cbn [for_each].
  - apply aborts_ret.
  - apply aborts_bind; [apply Hbody; now left|].
    intros _. apply IH. intros Y HY. apply Hbody. now right.
Qed.

(** Printing statements: a chain of [<<] never aborts. *)
Ltac aborts_print := repeat apply aborts_shl; apply aborts_OS.

(** The assertions of [printTokenAssertion] hold where the generators call
    it: on a child of the node, after [isToken] has answered yes. *)
Lemma printTokenAssertion_aborts (RK : RecordKeeper.t) (VariableName : string)
    (Value : RecordVal.t) (Ty : RecordPtr.t) :
  isLayout RK (RecordVal.getType Value) = Ok true ->
  getLayoutNodeType RK Value = Ok Ty ->
  isToken RK (RecordRecTy Ty) = Ok true ->
  abortsOnDefect (printTokenAssertion RK VariableName Value).
Proof.
  intros HL HTy HTok. unfold printTokenAssertion.
  rewrite HL.
  apply aborts_bind_lift; [apply defectOnly_Ok|]. intros b [= <-].
  apply aborts_bind_lift; [apply defectOnly_Ok|]. intros _ _.
  rewrite HTy.
  apply aborts_bind_lift; [apply defectOnly_Ok|]. intros Ty' [= <-].
  rewrite HTok.
  apply aborts_bind_lift; [apply defectOnly_Ok|]. intros t [= <-].
  apply aborts_bind_lift; [apply defectOnly_Ok|]. intros _ _.
  apply aborts_bind_lift; [now apply getLayoutNodeRecord_Child_defect|].
  intros TokenRec _.
  apply aborts_bind_lift; [apply deref_defect|]. intros R _.
  apply aborts_bind_lift; [apply getValueAsString_defect|]. intros Kind _.
  apply aborts_bind_lift; [apply is_defect|]. intros i _.
  destruct i; [aborts_print|].
  apply aborts_bind_lift; [now apply getTokenSpelling_defect|].
  intros Spelling _. aborts_print.
Qed.

Lemma printSyntaxInterface_aborts (RK : RecordKeeper.t) (Node : RecordPtr.t) :
  abortsOnDefect (printSyntaxInterface RK Node).
Proof.
  unfold printSyntaxInterface. cbv zeta.
  apply aborts_bind_lift; [apply deref_defect|]. intros R _.
  apply aborts_bind_lift; [apply back_defect|]. intros Super _.
  apply aborts_bind; [aborts_print|]. intros _.
  apply aborts_bind_lift; [apply getChildrenOf_defect|]. intros Children _.
  apply aborts_bind;
    [apply aborts_for_each; intros Child _; aborts_print|]. intros _.
  apply aborts_bind; [aborts_print|]. intros _.
  apply aborts_bind; [aborts_print|]. intros _.
  apply aborts_bind_lift; [apply getChildrenOf_defect|]. intros Children' _.
  apply aborts_bind.
  - apply aborts_for_each. intros Child _.
    apply aborts_bind_lift.
    + destruct (RecordVal.getType Child);
        first [apply defectOnly_Ok | apply defectOnly_Fail; defect].
    + intros ChildType _.
      apply aborts_bind; [aborts_print | intros _; aborts_print].
  - intros _. apply aborts_bind; [aborts_print | intros _; apply aborts_ret].
Qed.

Lemma printSyntaxDataInterface_aborts (Node : RecordPtr.t) :
  abortsOnDefect (printSyntaxDataInterface Node).
Proof.
  unfold printSyntaxDataInterface. cbv zeta.
  apply aborts_bind; [aborts_print | intros _; apply aborts_ret].
Qed.

Lemma printSyntaxImplementation_aborts (RK : RecordKeeper.t)
    (Node : RecordPtr.t) :
  abortsOnDefect (printSyntaxImplementation RK Node).
Proof.
  unfold printSyntaxImplementation. cbv zeta.
  apply aborts_bind_lift; [apply getChildrenOf_defect|]. intros Children HC.
  apply aborts_bind; [|intros _; apply aborts_ret].
  apply aborts_for_each. intros Child HIn.
  pose proof (getChildrenOf_isLayout RK Node Children HC Child HIn) as HL.
  apply aborts_bind_lift; [now apply getLayoutNodeType_defect|].
  intros ChildType HTy.
  apply aborts_bind; [aborts_print|]. intros _.
  apply aborts_bind; [aborts_print|]. intros _.
  apply aborts_bind_lift; [apply is_defect|]. intros t HTok.
  apply aborts_bind; [|intros _; aborts_print].
  destruct t; [|aborts_print].
  apply aborts_bind; [|intros _; aborts_print].
  exact (printTokenAssertion_aborts RK _ Child ChildType HL HTy HTok).
Qed.

Lemma printSyntaxDataImplementation_aborts (RK : RecordKeeper.t)
    (Node : RecordPtr.t) :
  abortsOnDefect (printSyntaxDataImplementation RK (registry RK) Node).
Proof.
  unfold printSyntaxDataImplementation. cbv zeta.
  apply aborts_bind_lift; [apply deref_defect|]. intros R _.
  apply aborts_bind_lift; [apply back_defect|]. intros Super _.
  apply aborts_bind_lift; [apply getChildrenOf_defect|]. intros Children0 _.
  apply aborts_bind; [aborts_print|]. intros _.
  apply aborts_bind_lift; [apply getChildrenOf_defect|]. intros Children HC.
  apply aborts_bind.
  { apply aborts_for_each. intros Child HIn.
    pose proof (getChildrenOf_isLayout RK Node Children HC Child HIn) as HL.
    apply aborts_bind_lift; [now apply getLayoutNodeType_defect|].
    intros ChildType HTy.
    apply aborts_bind_lift; [apply is_defect|]. intros t HTok.
    destruct t; [|aborts_print].
    exact (printTokenAssertion_aborts RK _ Child ChildType HL HTy HTok). }
  intros _.
  apply aborts_bind; [aborts_print|]. intros _.
  apply aborts_bind; [aborts_print|]. intros _.
  apply aborts_bind; [aborts_print|]. intros _.
  apply aborts_bind_lift; [apply getChildrenOf_defect|]. intros Children' HC'.
  apply aborts_bind.
  { apply aborts_for_each. intros Child HIn.
    pose proof (getChildrenOf_isLayout RK Node Children' HC' Child HIn) as HL.
    apply aborts_bind_lift; [now apply getLayoutNodeType_defect|].
    intros ChildType HTy.
    apply aborts_bind_lift; [apply is_defect|]. intros t HTok.
    destruct t.
    - apply aborts_bind_lift; [now apply getLayoutNodeRecord_Child_defect|].
      intros ChildRec _.
      apply aborts_bind_lift; [apply deref_defect|]. intros CR _.
      apply aborts_bind_lift; [apply getValueAsString_defect|].
      intros TokenKind _.
      apply aborts_bind_lift; [apply getValueAsString_defect|].
      intros TokenSpelling _. aborts_print.
    - apply aborts_bind_lift;
        [exact (getMissingSyntaxKind_defect RK Child ChildType HL HTy HTok)|].
      intros ChildKind _. aborts_print. }
  intros _. apply aborts_bind; [aborts_print | intros _; apply aborts_ret].
Qed.

Lemma printSyntaxInterfaces_aborts (RK : RecordKeeper.t) (opts : options.t) :
  abortsOnDefect (printSyntaxInterfaces RK opts).
Proof.
  unfold printSyntaxInterfaces. cbv zeta.
  apply aborts_bind_lift; [apply getAllDerivedDefinitions_defect|].
  intros Nodes _.
  apply aborts_bind; [|intros _; apply aborts_ret].
  apply aborts_for_each. intros Node _.
  destruct (RecordPtr.getName Node =? _)%string; [apply aborts_ret|].
  apply aborts_bind; [apply printSyntaxInterface_aborts|]. intros _.
  apply aborts_bind; [apply printSyntaxDataInterface_aborts|]. intros _.
  apply aborts_ret.
Qed.

Lemma printSyntaxImplementations_aborts (RK : RecordKeeper.t)
    (opts : options.t) :
  abortsOnDefect (printSyntaxImplementations RK (registry RK) opts).
Proof.
  unfold printSyntaxImplementations. cbv zeta.
  apply aborts_bind_lift; [apply getAllDerivedDefinitions_defect|].
  intros Nodes _.
  apply aborts_bind; [|intros _; apply aborts_ret].
  apply aborts_for_each. intros Node _.
  destruct (RecordPtr.getName Node =? _)%string; [apply aborts_ret|].
  apply aborts_bind; [aborts_print|]. intros _.
  apply aborts_bind; [apply printSyntaxImplementation_aborts|]. intros _.
  apply aborts_bind; [aborts_print|]. intros _.
  apply aborts_bind; [apply printSyntaxDataImplementation_aborts|]. intros _.
  apply aborts_ret.
Qed.

(** With a recognized category neither dispatch reaches its
    unreachable case. *)
Lemma genInterface_aborts (RK : RecordKeeper.t) (opts : options.t) :
  getCategory opts <> Category.Unknown ->
  abortsOnDefect (genInterface RK opts).
Proof.
  intros HK. unfold genInterface.
  destruct (getCategory opts);
    first [ contradiction
          | apply printSyntaxInterfaces_aborts
          | apply aborts_ret ].
Qed.

Lemma genImplementation_aborts (RK : RecordKeeper.t) (opts : options.t) :
  getCategory opts <> Category.Unknown ->
  abortsOnDefect (genImplementation RK (registry RK) opts).
Proof.
  intros HK. unfold genImplementation.
  destruct (getCategory opts);
    first [ contradiction
          | apply printSyntaxImplementations_aborts
          | apply aborts_ret ].
Qed.

(** ** How a run ends *)

Lemma returns_ret {A : Type} (a : A) : returns a (ret a).
Proof. intros os a' os' [= <- _]. reflexivity. Qed.

Lemma returns_bind {A B : Type} (m : Printer A) (k : A -> Printer B) (b : B) :
  (forall a, returns b (k a)) -> returns b (bind m k).
Proof.
  intros Hk os b' os' H. cbn [bind Monad_Printer] in H.
  destruct (m os) as [[a os1]|e]; [exact (Hk a os1 b' os' H) | discriminate].
Qed.

Lemma genInterface_returns_false (RK : RecordKeeper.t) (opts : options.t) :
  returns false (genInterface RK opts).
Proof.
  unfold genInterface.
  destruct (getCategory opts);
    try apply returns_ret; try (intros os b os' H; discriminate H);
    unfold printSyntaxInterfaces; cbv zeta;
    repeat (apply returns_bind; intros); apply returns_ret.
Qed.

Lemma genImplementation_returns_false (RK : RecordKeeper.t)
    (S : SmallPtrSet.t) (opts : options.t) :
  returns false (genImplementation RK S opts).
Proof.
  unfold genImplementation.
  destruct (getCategory opts);
    try apply returns_ret; try (intros os b os' H; discriminate H);
    unfold printSyntaxImplementations; cbv zeta;
    repeat (apply returns_bind; intros); apply returns_ret.
Qed.

Lemma main_outcome (opts : options.t) (Input : option RecordKeeper.t) :
  main opts Input =
  if Category.eqb (getCategory opts) Category.Unknown then
    mkOutcome (Exited 1)
              [errs (options.Category opts);
               errs (" is an unknown category!" ++ nl); PrintHelpMessage]
              None
  else
    match Input with
    | None => mkOutcome (Exited 1) [] None
    | Some Records =>
        match options.Action opts with
        | ActionType.None =>
            mkOutcome (Exited 1)
                      [errs ("action required" ++ nl); PrintHelpMessage] None
        | ActionType.GenInterface =>
            ended (genInterface Records opts EmptyString)
        | ActionType.GenImplementation =>
            ended (genImplementation Records (registry Records) opts
                                     EmptyString)
        end
    end.
Proof.
  unfold main.
  destruct (Category.eqb (getCategory opts) Category.Unknown); [reflexivity|].
  destruct Input as [Records|]; [|reflexivity].
  unfold TableGenMain. rewrite SyntaxTableGenMain_dispatch.
  destruct (options.Action opts); [reflexivity| |].
  - destruct (genImplementation Records (registry Records) opts EmptyString)
      as [[b os]|e] eqn:H; [|reflexivity].
    now rewrite (genImplementation_returns_false _ _ _ _ _ _ H).
  - destruct (genInterface Records opts EmptyString) as [[b os]|e] eqn:H;
      [|reflexivity].
    now rewrite (genInterface_returns_false _ _ _ _ _ H).
Qed.

Lemma eqb_Unknown (c : Category.t) :
  Category.eqb c Category.Unknown = true <-> c = Category.Unknown.
Proof. destruct c; simpl; split; congruence. Qed.

(** X11. Every run exits with status 0 or 1, or aborts on a defect of the
    schema: a value of the wrong kind, a missing field, a pointer into
    nothing, a node in no category, a missing class or string, or a record
    without superclass. No run fails an assertion of the layout helpers,
    falls through the switch of [getMissingSyntaxKind], or reaches the
    unreachable case of the dispatch: the callers' tests rule them out. *)
Theorem run_exits_or_aborts_on_schema_defect (opts : options.t)
    (Input : option RecordKeeper.t) :
  In (status (main opts Input))
     [ Exited 0; Exited 1; Aborted BadCast; Aborted NullPointer;
       Aborted DanglingPointer; Aborted NoOptionalValue; Aborted FatalError;
       Aborted EmptyArray ].
Proof.
  assert (Hended : forall r : result (bool * raw_ostream),
            (forall e, r = Fail e -> schemaDefect e) ->
            In (status (ended r))
               [ Exited 0; Exited 1; Aborted BadCast; Aborted NullPointer;
                 Aborted DanglingPointer; Aborted NoOptionalValue;
                 Aborted FatalError; Aborted EmptyArray ]).
  { intros [[b os]|e] H; cbn [ended status]; [simpl; tauto|].
    specialize (H e eq_refl). unfold schemaDefect in H. simpl in H.
    repeat destruct H as [<-|H]; simpl; tauto. }
  rewrite main_outcome.
  destruct (Category.eqb (getCategory opts) Category.Unknown) eqn:HU;
    [simpl; tauto|].
  assert (HK : getCategory opts <> Category.Unknown).
  { intros HE. apply eqb_Unknown in HE. congruence. }
  destruct Input as [Records|]; [|simpl; tauto].
  destruct (options.Action opts); [simpl; tauto| |]; apply Hended.
  - exact (genImplementation_aborts Records opts HK EmptyString).
  - exact (genInterface_aborts Records opts HK EmptyString).
Qed.

(** X12. Whenever [SyntaxTableGenMain] returns, it returns true exactly
    when no action was given: the print functions and both dispatches
    return false on every path, so a defect of the schema is never
    reported through the return value; it ends the run inside a helper
    instead. *)
Theorem SyntaxTableGenMain_returns_true_iff_no_action (opts : options.t)
    (os : raw_ostream) (Records : RecordKeeper.t) :
  match fst (SyntaxTableGenMain opts os Records) with
  | Ok (b, _) =>
      b = match options.Action opts with
          | ActionType.None => true
          | _ => false
          end
  | Fail _ => True
  end.
Proof.
  rewrite SyntaxTableGenMain_dispatch.
  destruct (options.Action opts); cbn [fst]; [reflexivity| |].
  - destruct (genImplementation Records (registry Records) opts os)
      as [[b os']|e] eqn:H; [|exact I].
    exact (genImplementation_returns_false _ _ _ _ _ _ H).
  - destruct (genInterface Records opts os) as [[b os']|e] eqn:H; [|exact I].
    exact (genInterface_returns_false _ _ _ _ _ H).
Qed.

(** ** Declarations exist wherever definitions do *)

Lemma bind_Printer_Ok {A B : Type} (m : Printer A) (k : A -> Printer B)
    (os : raw_ostream) (r : B * raw_ostream) :
  bind m k os = Ok r -> exists a os1, m os = Ok (a, os1) /\ k a os1 = Ok r.
Proof.
  cbn [bind Monad_Printer]. destruct (m os) as [[a os1]|e]; [|discriminate].
  intros H. now exists a, os1.
Qed.

Lemma lift_Ok {A : Type} (r : result A) (os : raw_ostream)
    (x : A * raw_ostream) :
  lift r os = Ok x -> r = Ok (fst x).
Proof.
  unfold lift. destruct r as [a|e]; [|discriminate]. now intros [= <-].
Qed.

Lemma for_each_Ok {A : Type} (Xs : list A) (body : A -> Printer unit) :
  forall os r, for_each Xs body os = Ok r ->
  forall X, In X Xs -> exists os1 r1, body X os1 = Ok r1.
Proof.
  induction Xs as [|Y Xs IH]; intros os r H X HIn; [destruct HIn|].
  cbn [for_each] in H. apply bind_Printer_Ok in H.
  destruct H as (u & os1 & HY & H).
  destruct HIn as [<-|HIn]; [now exists os, (u, os1) | exact (IH _ _ H X HIn)].
Qed.

Lemma for_each_emits {A : Type} (Xs : list A) (body : A -> Printer unit) :
  (forall X, In X Xs -> exists w, emits (body X) tt w) ->
  exists w, emits (for_each Xs body) tt w.
Proof.
  induction Xs as [|Y Xs IH]; intros Hbody; cbn [for_each].
  - exists EmptyString. apply emits_ret.
  - destruct (Hbody Y (or_introl eq_refl)) as (w1 & H1).
    destruct IH as (w2 & H2); [intros X HX; apply Hbody; now right|].
    exists (w1 ++ w2). eapply emits_bind; [exact H1 | exact H2].
Qed.

(** What a printed definition has read of its node. *)
Lemma printSyntaxDataImplementation_Ok (RK : RecordKeeper.t)
    (S : SmallPtrSet.t) (Node : RecordPtr.t) (os : raw_ostream)
    (r : bool * raw_ostream) :
  printSyntaxDataImplementation RK S Node os = Ok r ->
  exists R P Children,
    RecordKeeper.deref RK Node = Ok R /\
    back (Rec.getSuperClasses R) = Ok P /\
    getChildrenOf RK Node = Ok Children.
Proof.
  unfold printSyntaxDataImplementation. cbv zeta. intros H.
  apply bind_Printer_Ok in H. destruct H as (R & os1 & HR & H).
  apply bind_Printer_Ok in H. destruct H as (P & os2 & HP & H).
  apply bind_Printer_Ok in H. destruct H as (Children & os3 & HC & _).
  apply lift_Ok in HR, HP, HC. now exists R, P, Children.
Qed.

Lemma declaration_where_definition (RK : RecordKeeper.t) (S : SmallPtrSet.t)
    (Node : RecordPtr.t) (os : raw_ostream) (r : bool * raw_ostream) :
  printSyntaxDataImplementation RK S Node os = Ok r ->
  exists w,
    emits (printSyntaxInterface RK Node ;; printSyntaxDataInterface Node ;;
           ret tt) tt w.
Proof.
  intros H. apply printSyntaxDataImplementation_Ok in H.
  destruct H as (R & P & Children & HR & HP & HC).
  destruct (printSyntaxInterface_fields RK Node R P Children HR HP HC)
    as (ss & _ & H1).
  assert (H2 : exists w, emits (printSyntaxDataInterface Node) false w).
  { unfold printSyntaxDataInterface. eexists. emit. }
  destruct H2 as (w2 & H2).
  eexists. eapply emits_bind; [exact H1|].
  eapply emits_bind; [exact H2 | apply emits_ret].
Qed.

Lemma printSyntaxInterfaces_where_Implementations (RK : RecordKeeper.t)
    (S : SmallPtrSet.t) (opts : options.t) (os : raw_ostream)
    (r : bool * raw_ostream) :
  printSyntaxImplementations RK S opts os = Ok r ->
  exists w, emits (printSyntaxInterfaces RK opts) false w.
Proof.
  unfold printSyntaxImplementations, printSyntaxInterfaces. cbv zeta.
  intros H.
  apply bind_Printer_Ok in H. destruct H as (Nodes & os1 & HN & H).
  apply lift_Ok in HN. cbn [fst] in HN.
  apply bind_Printer_Ok in H. destruct H as (u & os2 & HL & _).
  assert (Hloop : exists w,
            emits (for_each Nodes
                     (fun Node =>
                        if (RecordPtr.getName Node
                            =? "Any" ++ options.Category opts)%string
                        then ret tt
                        else printSyntaxInterface RK Node ;;
                             printSyntaxDataInterface Node ;; ret tt)) tt w).
  { apply for_each_emits. intros Node HIn.
    destruct (for_each_Ok _ _ _ _ HL Node HIn) as (os3 & r3 & HB).
    cbv beta in HB.
    destruct (RecordPtr.getName Node =? _)%string.
    - exists EmptyString. apply emits_ret.
    - apply bind_Printer_Ok in HB. destruct HB as (u1 & o1 & _ & HB).
      apply bind_Printer_Ok in HB. destruct HB as (b2 & o2 & _ & HB).
      apply bind_Printer_Ok in HB. destruct HB as (u3 & o3 & _ & HB).
      apply bind_Printer_Ok in HB. destruct HB as (b4 & o4 & HD & _).
      exact (declaration_where_definition RK S Node o3 _ HD). }
  destruct Hloop as (w & Hw).
  exists (EmptyString ++ w ++ EmptyString).
  eapply emits_bind; [apply emits_lift; exact HN|].
  eapply emits_bind; [exact Hw | apply emits_ret].
Qed.

(** X13. Whenever the implementation run of a category exits with status
    0 on some records, so does the interface run of that category on the
    same records: every node whose definition is generated has its
    declaration generated, since a declaration reads strictly less of the
    schema. The converse fails on a node whose token has no spelling. *)
Theorem interface_succeeds_where_implementation_does (C : string)
    (L : TargetLanguage.t) (Records : RecordKeeper.t) :
  status (main (options.mk ActionType.GenImplementation L C) (Some Records))
    = Exited 0 ->
  status (main (options.mk ActionType.GenInterface L C) (Some Records))
    = Exited 0.
Proof.
  rewrite !main_outcome. cbn [options.Action].
  change (getCategory (options.mk ActionType.GenImplementation L C))
    with (getCategory (options.mk ActionType.GenInterface L C)).
  destruct (Category.eqb _ Category.Unknown); [discriminate|].
  unfold genImplementation, genInterface.
  change (getCategory (options.mk ActionType.GenImplementation L C))
    with (getCategory (options.mk ActionType.GenInterface L C)).
  assert (Htree :
            status (ended (printSyntaxImplementations
                             Records (registry Records)
                             (options.mk ActionType.GenImplementation L C)
                             EmptyString)) = Exited 0 ->
            status (ended (printSyntaxInterfaces
                             Records
                             (options.mk ActionType.GenInterface L C)
                             EmptyString)) = Exited 0).
  { destruct (printSyntaxImplementations
                Records (registry Records)
                (options.mk ActionType.GenImplementation L C) EmptyString)
      as [r|e] eqn:HI; [intros _ | discriminate].
    destruct (printSyntaxInterfaces_where_Implementations
                Records _ _ _ _ HI) as (w & Hw).
    change (printSyntaxInterfaces
              Records (options.mk ActionType.GenImplementation L C))
      with (printSyntaxInterfaces
              Records (options.mk ActionType.GenInterface L C)) in Hw.
    now rewrite (Hw EmptyString). }
  destruct (getCategory (options.mk ActionType.GenInterface L C));
    first [exact Htree | intros H; exact H | reflexivity].
Qed.

Lemma interface_succeeds_where_implementation_does_witness :
  status (main (Example.interface "Stmt") (Some Example.Records)) = Exited 0 /\
  status (main (Example.implementation "Stmt") (Some Example.Defective))
    = Aborted NoOptionalValue /\
  status (main (Example.interface "Stmt") (Some Example.Defective)) = Exited 0.
Proof.
  split; [|split; reflexivity].
  exact (interface_succeeds_where_implementation_does
           "Stmt" TargetLanguage.CPlusPlus Example.Records eq_refl).
Defined.
